(** * Maven dependency visualizer, stage 2: coordinate parsing, POM address
      construction, POM retrieval and dependency extraction.

    A shallow embedding of [DependencyVisualizer] (src/stage2.py) and the
    properties of its resolution-and-extraction pipeline.

    Conventions of the embedding.
    - A Python [str] is a list of Unicode code points ([N]); string literals
      are written in UTF-8 and decoded by [u].
    - A method that prints and may raise is a computation in the monad [M]:
      it yields the lines written to standard output and either the
      exception raised or the value returned.
    - The two library calls that reach outside the program, the XML reader
      [ET.fromstring] and [urllib.request.urlopen], are parameters of the
      functions that call them. *)

From Stdlib Require Import String Ascii.
From Stdlib Require Import List NArith ZArith Lia Bool DecimalN.
Import ListNotations.

Local Open Scope N_scope.

(** ** Python strings *)

Module Str.

Definition char : Type := N.
Definition str : Type := list char.

(** Bytes of a literal, then UTF-8 decoding (well-formed input only). *)
Definition bytes_of (s : string) : list N :=
  List.map N_of_ascii (list_ascii_of_string s).

Definition cont (b : N) : N := b - 128.

Fixpoint utf8_decode (bs : list N) : str :=
  match bs with
  | [] => []
  | b :: r =>
      if b <? 128 then b :: utf8_decode r
      else if b <? 224 then
        match r with
        | c1 :: r1 => ((b - 192) * 64 + cont c1) :: utf8_decode r1
        | _ => []
        end
      else if b <? 240 then
        match r with
        | c1 :: c2 :: r2 =>
            ((b - 224) * 4096 + cont c1 * 64 + cont c2) :: utf8_decode r2
        | _ => []
        end
      else
        match r with
        | c1 :: c2 :: c3 :: r3 =>
            ((b - 240) * 262144 + cont c1 * 4096 + cont c2 * 64 + cont c3)
              :: utf8_decode r3
        | _ => []
        end
  end.

Definition u (s : string) : str := utf8_decode (bytes_of s).

Definition eqb (a b : str) : bool :=
  if list_eq_dec N.eq_dec a b then true else false.

(** [c in s] for a one-character [c]. *)
Definition contains (c : char) (s : str) : bool := existsb (N.eqb c) s.

(** [s.count(c)] for a one-character [c]. *)
Definition count (c : char) (s : str) : nat := count_occ N.eq_dec s c.

(** [str.isspace] on one code point: the code points CPython classifies as
    whitespace ([_PyUnicode_IsWhitespace]). *)
Definition isspace (c : char) : bool :=
  ((9 <=? c) && (c <=? 13)) || ((28 <=? c) && (c <=? 32))
  || (c =? 133) || (c =? 160) || (c =? 5760)
  || ((8192 <=? c) && (c <=? 8202))
  || (c =? 8232) || (c =? 8233) || (c =? 8239) || (c =? 8287)
  || (c =? 12288).

Fixpoint lstrip (s : str) : str :=
  match s with
  | [] => []
  | c :: r => if isspace c then lstrip r else s
  end.

Definition rstrip (s : str) : str := rev (lstrip (rev s)).

(** [s.strip()] *)
Definition strip (s : str) : str := rstrip (lstrip s).

(** [s.split(sep, 1)] for a one-character [sep]: at most one split, at the
    first occurrence. *)
Fixpoint split1 (sep : char) (s : str) : list str :=
  match s with
  | [] => [[]]
  | c :: r =>
      if c =? sep then [[]; r]
      else match split1 sep r with
           | h :: t => (c :: h) :: t
           | [] => [[c]]
           end
  end.

(** [s.replace(old, new)] for one-character [old] and [new]. *)
Definition replace (old new : char) (s : str) : str :=
  List.map (fun c => if c =? old then new else c) s.

(** [s.endswith(c)] for a one-character [c]. *)
Definition endswith (c : char) (s : str) : bool :=
  match rev s with
  | x :: _ => x =? c
  | [] => false
  end.

(** [s[:-1]] *)
Definition drop_last (s : str) : str := removelast s.

(** [str(n)] for a non-negative integer. *)
Fixpoint digits (d : Decimal.uint) : str :=
  match d with
  | Decimal.Nil => []
  | Decimal.D0 r => 48 :: digits r
  | Decimal.D1 r => 49 :: digits r
  | Decimal.D2 r => 50 :: digits r
  | Decimal.D3 r => 51 :: digits r
  | Decimal.D4 r => 52 :: digits r
  | Decimal.D5 r => 53 :: digits r
  | Decimal.D6 r => 54 :: digits r
  | Decimal.D7 r => 55 :: digits r
  | Decimal.D8 r => 56 :: digits r
  | Decimal.D9 r => 57 :: digits r
  end.

Definition of_N (n : N) : str := digits (N.to_uint n).

End Str.

Import Str.

Definition colon : char := 58.
Definition dot : char := 46.
Definition slash : char := 47.

(** ** Exceptions, output and the monad of methods *)

(** The exception classes the program raises or catches.  All of them are
    below [Exception] in Python's hierarchy; [HTTPError] is also a
    [URLError], and [ParseError] is also a [SyntaxError].  [OtherError]
    stands for an instance of any further class (a time-out, a decoding
    error, ...), with the text [str] gives for it. *)
Inductive exn : Type :=
| ValueError (msg : str)
| SyntaxError (msg : str)
| ParseError (msg : str)
| HTTPError (code : N) (reason : str)
| URLError (reason : str)
| OtherError (msg : str)
| Exception (msg : str).

(** [str(e)], which is what [f"{e}"] formats. *)
Definition str_of_exn (e : exn) : str :=
  match e with
  | ValueError m | SyntaxError m | ParseError m | OtherError m
  | Exception m => m
  | HTTPError c r => u "HTTP Error " ++ of_N c ++ u ": " ++ r
  | URLError r => u "<urlopen error " ++ r ++ u ">"
  end.

Definition result (A : Type) : Type := (exn + A)%type.

(** Lines printed, and the exception raised or the value returned. *)
Definition M (A : Type) : Type := (list str * result A)%type.

Definition ret {A} (a : A) : M A := ([], inr a).
Definition raise {A} (e : exn) : M A := ([], inl e).
Definition print (line : str) : M unit := ([line], inr tt).
Definition lift {A} (r : result A) : M A := ([], r).

Definition bind {A B} (m : M A) (k : A -> M B) : M B :=
  match m with
  | (out, inl e) => (out, inl e)
  | (out, inr a) => let (out', r) := k a in (out ++ out', r)
  end.

(** [try: body except ... as e: handler e].  A handler that does not apply
    re-raises. *)
Definition try_except {A} (body : M A) (handler : exn -> M A) : M A :=
  match body with
  | (out, inl e) => let (out', r) := handler e in (out ++ out', r)
  | (out, inr a) => (out, inr a)
  end.

Declare Scope py_scope.
Delimit Scope py_scope with py.
Notation "x <- m ;; k" := (bind m (fun x => k))
  (at level 61, m at next level, right associativity) : py_scope.
Notation "m ;;; k" := (bind m (fun _ => k))
  (at level 61, right associativity) : py_scope.
Local Open Scope py_scope.

Definition stdout {A} (m : M A) : list str := fst m.
Definition outcome {A} (m : M A) : result A := snd m.

(** The value returned, when the method returns. *)
Definition value {A} (m : M A) : option A :=
  match outcome m with
  | inr a => Some a
  | inl _ => None
  end.

(** ** Coordinate parser *)

Definition msg_no_colon : str := u "Имя пакета должно содержать ':'".
Definition msg_package_error : str := u "Ошибка разбора имени пакета: ".

(** [group_id, artifact_id = package.split(':', 1)] : unpacking a list that
    does not have two elements raises [ValueError]. *)
Definition unpack2 (l : list str) : M (str * str) :=
  match l with
  | [a; b] => ret (a, b)
  | [] | [_] =>
      raise (ValueError (u "not enough values to unpack (expected 2, got "
                           ++ of_N (N.of_nat (List.length l)) ++ u ")"))
  | _ => raise (ValueError (u "too many values to unpack (expected 2)"))
  end.

Definition parse_package_name (package : str) : M (str * str) :=
  try_except
    (if negb (contains colon package)
     then raise (ValueError msg_no_colon)
     else
       p <- unpack2 (split1 colon package) ;;
       let (group_id, artifact_id) := p in
       ret (strip group_id, strip artifact_id))
    (fun e =>
       match e with
       | ValueError _ => print (msg_package_error ++ str_of_exn e) ;;; raise e
       | _ => raise e
       end).

(** [":".join(parts)] for the pair the parser returns. *)
Definition rejoin (parts : str * str) : str :=
  fst parts ++ u ":" ++ snd parts.

(** The text neither begins nor ends with whitespace. *)
Definition starts_clean (s : str) : bool :=
  match s with
  | [] => true
  | c :: _ => negb (isspace c)
  end.

Definition trimmed (s : str) : bool :=
  starts_clean s && starts_clean (rev s).

(** ** Repository URL builder *)

Definition construct_pom_url (group_id artifact_id version repository : str)
  : str :=
  let group_path := replace dot slash group_id in
  let pom_filename := artifact_id ++ u "-" ++ version ++ u ".pom" in
  let repository :=
    if endswith slash repository then drop_last repository else repository in
  repository ++ u "/" ++ group_path ++ u "/" ++ artifact_id ++ u "/"
    ++ version ++ u "/" ++ pom_filename.

(** ** Manifest fetcher *)

Definition bytes : Type := list N.

Record Request : Type := mkRequest {
  full_url : str;
  headers : list (str * str)
}.

(** What the program reads of the object [urlopen] returns: its status and
    what [read()] gives (the body, or the exception it raises). *)
Record Response : Type := mkResponse {
  status : N;
  read : result bytes
}.

Definition msg_downloading : str := u "Загрузка POM файла: ".
Definition msg_downloaded : str := u "POM файл успешно загружен".
Definition msg_http_status : str := u "HTTP ошибка: ".
Definition msg_http_error : str := u "Не удалось загрузить POM файл: HTTP ".
Definition msg_url_error : str := u "Ошибка URL: ".
Definition msg_download_error : str := u "Ошибка при загрузке POM файла: ".

(** The request the fetcher builds for an address, and the two exceptions
    it raises for a status that is not 200. *)
Definition request_for (pom_url : str) : Request :=
  mkRequest pom_url [(u "User-Agent", u "Maven-Dependency-Visualizer/1.0")].

Definition http_failure (code : N) (reason : str) : exn :=
  Exception (msg_http_error ++ of_N code ++ u " - " ++ reason).

Definition status_failure (code : N) : exn :=
  Exception (msg_download_error ++ msg_http_status ++ of_N code).

Section Fetcher.

(** [urllib.request.urlopen(Request(url, headers=...), timeout=...)]: the
    response, or the exception raised by building or sending the request. *)
Variable urlopen : Request -> N -> result Response.

(** [bytes.decode('utf-8')] *)
Variable decode_utf8 : bytes -> result str.

Definition download_pom_file (pom_url : str) : M str :=
  try_except
    (print (msg_downloading ++ pom_url) ;;;
     let req :=
       mkRequest pom_url [(u "User-Agent", u "Maven-Dependency-Visualizer/1.0")]
     in
     response <- lift (urlopen req 30) ;;
     if status response =? 200 then
       raw <- lift (read response) ;;
       content <- lift (decode_utf8 raw) ;;
       print msg_downloaded ;;;
       ret content
     else
       raise (Exception (msg_http_status ++ of_N (status response))))
    (fun e =>
       match e with
       | HTTPError code reason =>
           raise (Exception (msg_http_error ++ of_N code ++ u " - " ++ reason))
       | URLError reason => raise (Exception (msg_url_error ++ reason))
       | _ => raise (Exception (msg_download_error ++ str_of_exn e))
       end).

End Fetcher.

(** ** Element trees *)

(** An [xml.etree.ElementTree.Element] as the program reads it: the tag (in
    the form [{uri}local] when the element is in a namespace), the text
    before the first child ([None] when there is none) and the child
    elements in document order. *)
#[warnings="-register-all"]
Inductive Element : Type :=
  mkElement (tag : str) (text : option str) (children : list Element).

Definition tag (e : Element) : str := let (t, _, _) := e in t.
Definition text (e : Element) : option str := let (_, x, _) := e in x.
Definition children (e : Element) : list Element := let (_, _, c) := e in c.

(** Induction on element trees, with the hypothesis for every child. *)
Section ElementInduction.

Variable P : Element -> Prop.
Hypothesis step : forall t x cs, Forall P cs -> P (mkElement t x cs).

Fixpoint Element_nested_ind (e : Element) : P e :=
  match e with
  | mkElement t x cs =>
      step t x cs
        ((fix all (l : list Element) : Forall P l :=
            match l with
            | [] => Forall_nil P
            | c :: r => Forall_cons c (Element_nested_ind c) (all r)
            end) cs)
  end.

End ElementInduction.

(** [elem.iter(tag)]: the element itself and everything below it, in
    document order, restricted to the elements with that tag. *)
Fixpoint iter (t : str) (e : Element) : list Element :=
  match e with
  | mkElement t' _ cs =>
      (if Str.eqb t' t then [e] else []) ++ flat_map (iter t) cs
  end.

(** The same without the restriction ([elem.iter()]). *)
Fixpoint iter_all (e : Element) : list Element :=
  match e with
  | mkElement _ _ cs => e :: flat_map iter_all cs
  end.

(** *** ElementPath

    The two forms of path the program uses, [name] and [.//name], where
    [name] is [prefix:local]. *)
Inductive path : Type :=
| Child (name : str)
| Descendant (name : str).

Definition namespaces : Type := list (str * str).

Fixpoint lookup (k : str) (d : namespaces) : option str :=
  match d with
  | [] => None
  | (k', v) :: r => if Str.eqb k' k then Some v else lookup k r
  end.

(** The tag a name of a path stands for ([xpath_tokenizer]): [prefix:local]
    is [{uri}local] for the [uri] the prefix maps to, and an unknown prefix
    is a [SyntaxError]; a name without prefix is taken as it is when the
    mapping has no default namespace. *)
Definition qualified (ns : namespaces) (name : str) : result str :=
  if contains colon name then
    match split1 colon name with
    | [prefix; local] =>
        match lookup prefix ns with
        | Some uri => inr (u "{" ++ uri ++ u "}" ++ local)
        | None => inl (SyntaxError (u "prefix '" ++ prefix
                                      ++ u "' not found in prefix map"))
        end
    | _ => inr name
    end
  else
    match lookup [] ns with
    | Some uri => if Str.eqb uri [] then inr name
                  else inr (u "{" ++ uri ++ u "}" ++ name)
    | None => inr name
    end.

(** [elem.iterfind(path, ns)].  A child step selects the children with the
    tag; a descendant step goes through [elem.iter(tag)] and leaves out
    [elem] itself. *)
Definition iterfind (elem : Element) (p : path) (ns : namespaces)
  : result (list Element) :=
  match p with
  | Child name =>
      match qualified ns name with
      | inl e => inl e
      | inr t => inr (filter (fun e => Str.eqb (tag e) t) (children elem))
      end
  | Descendant name =>
      match qualified ns name with
      | inl e => inl e
      | inr t => inr (flat_map (iter t) (children elem))
      end
  end.

(** [elem.findall(path, ns)] *)
Definition findall (elem : Element) (p : path) (ns : namespaces)
  : result (list Element) :=
  iterfind elem p ns.

(** [elem.find(path, ns)]: the first match, or [None]. *)
Definition find (elem : Element) (p : path) (ns : namespaces)
  : result (option Element) :=
  match iterfind elem p ns with
  | inl e => inl e
  | inr l => inr (hd_error l)
  end.

(** ** Manifest parser *)

Definition maven_uri : str := u "http://maven.apache.org/POM/4.0.0".

(** [ns = {'maven': 'http://maven.apache.org/POM/4.0.0'}] *)
Definition ns : namespaces := [(u "maven", maven_uri)].

(** The dictionaries the parser builds, with the values their four keys
    hold: a text ([None] for an element without text) or a default. *)
Record Dependency : Type := mkDependency {
  groupId : option str;
  artifactId : option str;
  version : option str;
  scope : option str
}.

Definition msg_no_dependencies : str := u "В POM файле не найдены зависимости".
Definition msg_parse_error : str := u "Ошибка парсинга POM XML: ".
Definition msg_extract_error : str := u "Ошибка при извлечении зависимостей: ".

(** The body of the [for dep_elem in ...] loop, on the list
    [dependencies] as it stands, and the loop. *)
Definition extract_dependency (dep_elem : Element)
    (dependencies : list Dependency) : M (list Dependency) :=
  group_id_elem <- lift (find dep_elem (Child (u "maven:groupId")) ns) ;;
  artifact_id_elem <- lift (find dep_elem (Child (u "maven:artifactId")) ns) ;;
  version_elem <- lift (find dep_elem (Child (u "maven:version")) ns) ;;
  scope_elem <- lift (find dep_elem (Child (u "maven:scope")) ns) ;;
  match group_id_elem, artifact_id_elem with
  | Some group_id_elem, Some artifact_id_elem =>
      let dependency :=
        {| groupId := text group_id_elem;
           artifactId := text artifact_id_elem;
           version := match version_elem with
                      | Some version_elem => text version_elem
                      | None => Some (u "N/A")
                      end;
           scope := match scope_elem with
                    | Some scope_elem => text scope_elem
                    | None => Some (u "compile")
                    end |} in
      ret (dependencies ++ [dependency])
  | _, _ => ret dependencies
  end.

Fixpoint for_dep_elem (dep_elems : list Element)
    (dependencies : list Dependency) : M (list Dependency) :=
  match dep_elems with
  | [] => ret dependencies
  | dep_elem :: rest =>
      dependencies <- extract_dependency dep_elem dependencies ;;
      for_dep_elem rest dependencies
  end.

Section Parser.

(** [ET.fromstring]: the root element of the document, or the exception
    raised ([ParseError] for text that is not well-formed XML). *)
Variable fromstring : str -> result Element.

Definition parse_dependencies_from_pom (pom_content : str)
  : M (list Dependency) :=
  try_except
    (let dependencies := [] in
     root <- lift (fromstring pom_content) ;;
     dependencies_elem <-
       lift (find root (Descendant (u "maven:dependencies")) ns) ;;
     match dependencies_elem with
     | None => print msg_no_dependencies ;;; ret dependencies
     | Some dependencies_elem =>
         dep_elems <-
           lift (findall dependencies_elem (Child (u "maven:dependency")) ns) ;;
         for_dep_elem dep_elems dependencies
     end)
    (fun e =>
       match e with
       | ParseError _ => raise (Exception (msg_parse_error ++ str_of_exn e))
       | _ => raise (Exception (msg_extract_error ++ str_of_exn e))
       end).

End Parser.

(** ** Presentation and the stage as a whole *)

(** [f"{v}"] for a value of a record: the text, or [None]. *)
Definition format_value (v : option str) : str :=
  match v with
  | Some s => s
  | None => u "None"
  end.

(** [f"{i:2}"]: the number, right-aligned in two columns. *)
Definition format_index (i : N) : str :=
  let s := of_N i in
  repeat 32 (2 - List.length s) ++ s.

Definition newline : str := [10].

Definition msg_direct_open : str := u "=== ПРЯМЫЕ ЗАВИСИМОСТИ ПАКЕТА: ".
Definition msg_direct_close : str := u " (ЭТАП 2) ===".
Definition msg_none_found : str := u "Зависимости не найдены".
Definition msg_total : str := u "Всего найдено зависимостей: ".
Definition msg_rule : str := u "==============================================".

(** [for i, dep in enumerate(dependencies, i): print(...)] *)
Fixpoint print_dependencies (i : N) (dependencies : list Dependency)
  : M unit :=
  match dependencies with
  | [] => ret tt
  | dep :: rest =>
      print (format_index i ++ u ". " ++ format_value (groupId dep) ++ u ":"
               ++ format_value (artifactId dep) ++ u ":"
               ++ format_value (version dep) ++ u " ["
               ++ format_value (scope dep) ++ u "]") ;;;
      print_dependencies (i + 1) rest
  end.

Definition display_dependencies (dependencies : list Dependency)
    (package_name : str) : M unit :=
  print (newline ++ msg_direct_open ++ package_name ++ msg_direct_close) ;;;
  match dependencies with
  | [] => print msg_none_found
  | _ =>
      print_dependencies 1 dependencies ;;;
      print (newline ++ msg_total
               ++ of_N (N.of_nat (List.length dependencies))) ;;;
      print (msg_rule ++ newline)
  end.

(** The entries of [args] the stage reads. *)
Record Args : Type := mkArgs {
  package : str;
  repository : str;
  version_arg : str
}.

Definition msg_stage2 : str := u "=== ЭТАП 2: Сбор данных о зависимостях ===".
Definition msg_package : str := u "Анализируемый пакет: ".
Definition msg_repository : str := u "Репозиторий: ".
Definition msg_pom_url : str := u "POM URL: ".
Definition msg_stage2_done : str :=
  u "Этап 2 успешно завершен! Данные о зависимостях собраны.".

Section Stage.

Variable urlopen : Request -> N -> result Response.
Variable decode_utf8 : bytes -> result str.
Variable fromstring : str -> result Element.

Definition run_stage2 (args : Args) : M unit :=
  print msg_stage2 ;;;
  p <- parse_package_name (package args) ;;
  let (group_id, artifact_id) := p in
  let package_name :=
    group_id ++ u ":" ++ artifact_id ++ u ":" ++ version_arg args in
  print (msg_package ++ package_name) ;;;
  print (msg_repository ++ repository args) ;;;
  let pom_url :=
    construct_pom_url group_id artifact_id (version_arg args)
      (repository args) in
  print (msg_pom_url ++ pom_url) ;;;
  pom_content <- download_pom_file urlopen decode_utf8 pom_url ;;
  dependencies <- parse_dependencies_from_pom fromstring pom_content ;;
  display_dependencies dependencies package_name ;;;
  print msg_stage2_done.

End Stage.

(** ** Vocabulary of the statements *)

(** The tag of an element [local] of the Maven POM namespace. *)
Definition qname (local : str) : str := u "{" ++ maven_uri ++ u "}" ++ local.

Definition has_tag (t : str) (e : Element) : bool := Str.eqb (tag e) t.

(** The elements strictly below [e], in document order. *)
Definition descendants (e : Element) : list Element :=
  flat_map iter_all (children e).

(** The first child of [e] that is a [local] element of the POM namespace. *)
Definition child (local : str) (e : Element) : option Element :=
  hd_error (filter (has_tag (qname local)) (children e)).

(** The dependency list the parser works on: the first [dependencies]
    element of the POM namespace below the root, in document order. *)
Definition dependencies_elem (root : Element) : option Element :=
  hd_error (filter (has_tag (qname (u "dependencies"))) (descendants root)).

(** The [dependency] children of a dependency list. *)
Definition dependency_elems (d : Element) : list Element :=
  filter (has_tag (qname (u "dependency"))) (children d).

(** The dependency elements the parser goes through for a document. *)
Definition declared (root : Element) : list Element :=
  match dependencies_elem root with
  | Some d => dependency_elems d
  | None => []
  end.

Definition text_or (default : str) (e : option Element) : option str :=
  match e with
  | Some e => text e
  | None => Some default
  end.

(** The record of a dependency element, when it has one. *)
Definition record_of (dep : Element) : option Dependency :=
  match child (u "groupId") dep, child (u "artifactId") dep with
  | Some g, Some a =>
      Some {| groupId := text g;
              artifactId := text a;
              version := text_or (u "N/A") (child (u "version") dep);
              scope := text_or (u "compile") (child (u "scope") dep) |}
  | _, _ => None
  end.

(** The dependency element has no [groupId] child or no [artifactId]
    child. *)
Definition lacks_field (dep : Element) : bool :=
  match child (u "groupId") dep, child (u "artifactId") dep with
  | Some _, Some _ => false
  | _, _ => true
  end.

Fixpoint records (deps : list Element) : list Dependency :=
  match deps with
  | [] => []
  | dep :: rest =>
      match record_of dep with
      | Some r => r :: records rest
      | None => records rest
      end
  end.

(** What the loop body adds to the list for one element. *)
Definition appended (dep : Element) : list Dependency :=
  match record_of dep with
  | Some r => [r]
  | None => []
  end.

(** A field of a record is non-empty: it holds a text, and the text has at
    least one character. *)
Definition non_empty (field : option str) : Prop :=
  exists s, field = Some s /\ s <> [].

Fixpoint is_prefix (p s : str) : bool :=
  match p, s with
  | [], _ => true
  | a :: p', b :: s' => (a =? b) && is_prefix p' s'
  | _ :: _, [] => false
  end.

(** The element is in the Maven POM namespace. *)
Definition in_maven_namespace (e : Element) : bool :=
  is_prefix (u "{" ++ maven_uri ++ u "}") (tag e).

(** A reader that knows one document: [fromstring] for the examples. *)
Definition reads (doc : str) (root : Element) : str -> result Element :=
  fun s => if Str.eqb s doc then inr root
           else inl (ParseError (u "syntax error: line 1, column 0")).

Definition elem (local : str) (x : option str) (cs : list Element) : Element :=
  mkElement (qname local) x cs.

Definition plain (local : str) (x : option str) (cs : list Element) : Element :=
  mkElement local x cs.

(** ** Sample manifests

    Documents and the trees [ET.fromstring] builds for them. *)

(** [<project xmlns='http://maven.apache.org/POM/4.0.0'><dependencies>
    <dependency><groupId>junit</groupId><artifactId>junit</artifactId>
    </dependency></dependencies></project>] (written without the line
    breaks). *)
Definition junit_text : str :=
  u "<project xmlns='http://maven.apache.org/POM/4.0.0'><dependencies><dependency><groupId>junit</groupId><artifactId>junit</artifactId></dependency></dependencies></project>".

Definition junit_root : Element :=
  elem (u "project") None
    [elem (u "dependencies") None
       [elem (u "dependency") None
          [elem (u "groupId") (Some (u "junit")) [];
           elem (u "artifactId") (Some (u "junit")) []]]].

(** The same with an empty [<groupId/>], followed by a dependency without
    [artifactId]. *)
Definition empty_group_text : str :=
  u "<project xmlns='http://maven.apache.org/POM/4.0.0'><dependencies><dependency><groupId/><artifactId>junit</artifactId></dependency><dependency><groupId>org.slf4j</groupId></dependency></dependencies></project>".

Definition empty_group_root : Element :=
  elem (u "project") None
    [elem (u "dependencies") None
       [elem (u "dependency") None
          [elem (u "groupId") None [];
           elem (u "artifactId") (Some (u "junit")) []];
        elem (u "dependency") None
          [elem (u "groupId") (Some (u "org.slf4j")) []]]].

(** A manifest without [xmlns]: no element is in a namespace. *)
Definition no_namespace_text : str :=
  u "<project><dependencies><dependency><groupId>junit</groupId><artifactId>junit</artifactId><version>4.13</version></dependency></dependencies></project>".

Definition no_namespace_root : Element :=
  plain (u "project") None
    [plain (u "dependencies") None
       [plain (u "dependency") None
          [plain (u "groupId") (Some (u "junit")) [];
           plain (u "artifactId") (Some (u "junit")) [];
           plain (u "version") (Some (u "4.13")) []]]].

(** A manifest whose [dependencyManagement] comes before its own
    [dependencies]. *)
Definition managed_text : str :=
  u "<project xmlns='http://maven.apache.org/POM/4.0.0'><dependencyManagement><dependencies><dependency><groupId>org.bom</groupId><artifactId>bom</artifactId><version>1.0</version><scope>import</scope></dependency></dependencies></dependencyManagement><dependencies><dependency><groupId>org.slf4j</groupId><artifactId>slf4j-api</artifactId><version>2.0.9</version></dependency></dependencies></project>".

Definition managed_root : Element :=
  elem (u "project") None
    [elem (u "dependencyManagement") None
       [elem (u "dependencies") None
          [elem (u "dependency") None
             [elem (u "groupId") (Some (u "org.bom")) [];
              elem (u "artifactId") (Some (u "bom")) [];
              elem (u "version") (Some (u "1.0")) [];
              elem (u "scope") (Some (u "import")) []]]];
     elem (u "dependencies") None
       [elem (u "dependency") None
          [elem (u "groupId") (Some (u "org.slf4j")) [];
           elem (u "artifactId") (Some (u "slf4j-api")) [];
           elem (u "version") (Some (u "2.0.9")) []]]].

(** A manifest without a dependency list, and one whose list is empty. *)
Definition bare_text : str :=
  u "<project xmlns='http://maven.apache.org/POM/4.0.0'><modelVersion>4.0.0</modelVersion></project>".

Definition bare_root : Element :=
  elem (u "project") None [elem (u "modelVersion") (Some (u "4.0.0")) []].

Definition empty_list_text : str :=
  u "<project xmlns='http://maven.apache.org/POM/4.0.0'><dependencies/></project>".

Definition empty_list_root : Element :=
  elem (u "project") None [elem (u "dependencies") None []].

(** A document whose root is itself a [dependencies] element. *)
Definition root_list_text : str :=
  u "<dependencies xmlns='http://maven.apache.org/POM/4.0.0'><dependency><groupId>junit</groupId><artifactId>junit</artifactId></dependency></dependencies>".

Definition root_list_root : Element :=
  elem (u "dependencies") None
    [elem (u "dependency") None
       [elem (u "groupId") (Some (u "junit")) [];
        elem (u "artifactId") (Some (u "junit")) []]].

Definition junit_dependency : Element :=
  elem (u "dependency") None
    [elem (u "groupId") (Some (u "junit")) [];
     elem (u "artifactId") (Some (u "junit")) []].

Definition managed_list : Element :=
  elem (u "dependencies") None
    [elem (u "dependency") None
       [elem (u "groupId") (Some (u "org.bom")) [];
        elem (u "artifactId") (Some (u "bom")) [];
        elem (u "version") (Some (u "1.0")) [];
        elem (u "scope") (Some (u "import")) []]].

Definition sample_url : str :=
  u "https://example.com/repo/junit/junit/4.13/junit-4.13.pom".

(** The character is a decimal digit. *)
Definition is_digit (c : char) : bool := (48 <=? c) && (c <=? 57).

(** ** Arguments: validation and display

    The dictionary [vars(parser.parse_args())] returns.  Its keys, their
    order and the types of their values are fixed by the declarations of
    [parse_arguments]: three required texts, and five options with their
    defaults. *)
Record Config : Type := mkConfig {
  arg_package : str;
  arg_repository : str;
  arg_version : str;
  arg_test_mode : bool;
  arg_output : str;
  arg_ascii_tree : bool;
  arg_max_depth : Z;
  arg_filter : str
}.

(** The values such a dictionary holds. *)
Inductive pyval : Type :=
| VStr (s : str)
| VInt (z : Z)
| VBool (b : bool).

(** [config.items()] *)
Definition items (config : Config) : list (str * pyval) :=
  [(u "package", VStr (arg_package config));
   (u "repository", VStr (arg_repository config));
   (u "version", VStr (arg_version config));
   (u "test_mode", VBool (arg_test_mode config));
   (u "output", VStr (arg_output config));
   (u "ascii_tree", VBool (arg_ascii_tree config));
   (u "max_depth", VInt (arg_max_depth config));
   (u "filter", VStr (arg_filter config))].

(** [str(z)] for an integer. *)
Definition of_Z (z : Z) : str :=
  match z with
  | Zneg p => u "-" ++ of_N (Npos p)
  | _ => of_N (Z.to_N z)
  end.

(** [f"{value}"] *)
Definition format_pyval (v : pyval) : str :=
  match v with
  | VStr s => s
  | VInt z => of_Z z
  | VBool true => u "True"
  | VBool false => u "False"
  end.

(** [f"{key:15}"]: the text, left-aligned in fifteen columns. *)
Definition format_key (key : str) : str :=
  key ++ repeat 32 (15 - List.length key).

(** [s.isspace()]: at least one character, and whitespace only. *)
Definition str_isspace (s : str) : bool :=
  match s with
  | [] => false
  | _ :: _ => forallb isspace s
  end.

(** [not s] for a text. *)
Definition is_empty (s : str) : bool :=
  match s with
  | [] => true
  | _ :: _ => false
  end.

Definition msg_need_colon : str :=
  u "Имя пакета должно содержать ':' (group:artifact)".
Definition msg_need_version : str := u "Версия пакета не может быть пустой".
Definition msg_need_depth : str :=
  u "Максимальная глубина должна быть положительным числом".
Definition msg_need_repository : str := u "Репозиторий не может быть пустым".
Definition msg_validation : str := u "Ошибка валидации параметров: ".
Definition msg_validation_unexpected : str :=
  u "Неожиданная ошибка при валидации: ".

Definition validate_arguments (args : Config) : M bool :=
  try_except
    (if negb (contains colon (arg_package args))
     then raise (ValueError msg_need_colon)
     else if is_empty (arg_version args) || str_isspace (arg_version args)
     then raise (ValueError msg_need_version)
     else if (arg_max_depth args <=? 0)%Z
     then raise (ValueError msg_need_depth)
     else if is_empty (arg_repository args)
     then raise (ValueError msg_need_repository)
     else ret true)
    (fun e =>
       match e with
       | ValueError _ => print (msg_validation ++ str_of_exn e) ;;; ret false
       | _ => print (msg_validation_unexpected ++ str_of_exn e) ;;; ret false
       end).

(** [for key, value in config.items(): print(f"{key:15}: {value}")] *)
Fixpoint print_items (l : list (str * pyval)) : M unit :=
  match l with
  | [] => ret tt
  | (key, value) :: rest =>
      print (format_key key ++ u ": " ++ format_pyval value) ;;;
      print_items rest
  end.

Definition msg_config_open : str := u "=== КОНФИГУРАЦИЯ ПАРАМЕТРОВ (ЭТАП 1) ===".
Definition msg_config_close : str := u "===============================".

Definition display_config (config : Config) : M unit :=
  print (newline ++ msg_config_open) ;;;
  print_items (items config) ;;;
  print (msg_config_close ++ newline).

(** ** The program

    What ends a run besides the exceptions of [exn]: [sys.exit], which no
    [except Exception] catches, an interrupt from the keyboard, and the
    error class of [argparse]. *)
Inductive abort : Type :=
| SystemExit (code : N)
| KeyboardInterrupt
| ArgumentError (msg : str)
| Raised (e : exn).

Definition Proc (A : Type) : Type := (list str * (abort + A))%type.

Definition pret {A} (a : A) : Proc A := ([], inr a).
Definition exit {A} (code : N) : Proc A := ([], inl (SystemExit code)).

Definition pbind {A B} (m : Proc A) (k : A -> Proc B) : Proc B :=
  match m with
  | (out, inl a) => (out, inl a)
  | (out, inr x) => let (out', r) := k x in (out ++ out', r)
  end.

(** A method of [M] called from the program. *)
Definition call {A} (m : M A) : Proc A :=
  match m with
  | (out, inl e) => (out, inl (Raised e))
  | (out, inr a) => (out, inr a)
  end.

Definition ptry {A} (body : Proc A) (handler : abort -> Proc A) : Proc A :=
  match body with
  | (out, inl a) => let (out', r) := handler a in (out ++ out', r)
  | (out, inr x) => (out, inr x)
  end.

Declare Scope proc_scope.
Delimit Scope proc_scope with proc.
Notation "x <- m ;; k" := (pbind m (fun x => k))
  (at level 61, m at next level, right associativity) : proc_scope.
Notation "m ;;; k" := (pbind m (fun _ => k))
  (at level 61, right associativity) : proc_scope.

Definition status_of {A} (m : Proc A) : abort + A := snd m.

Definition msg_stage1 : str :=
  u "=== ЭТАП 1: Минимальный прототип с конфигурацией ===".
Definition msg_invalid_config : str :=
  u "Ошибка: неверные параметры конфигурации".
Definition msg_stage1_done : str :=
  u "Этап 1 успешно завершен! Конфигурация загружена.".
Definition msg_all_done : str := u "=== ВСЕ ЭТАПЫ УСПЕШНО ЗАВЕРШЕНЫ ===".
Definition msg_argument_error : str := u "Ошибка разбора аргументов: ".
Definition msg_interrupted : str := u "Программа прервана пользователем".
Definition msg_unexpected : str := u "Неожиданная ошибка: ".

Definition run_stage1 (config : Config) : Proc unit :=
  (call (print msg_stage1) ;;;
   valid <- call (validate_arguments config) ;;
   (if negb valid
    then call (print msg_invalid_config) ;;; exit 1
    else pret tt) ;;;
   call (display_config config) ;;;
   call (print (msg_stage1_done ++ newline)))%proc.

(** The entries of the dictionary [run_stage2] reads. *)
Definition args_of (config : Config) : Args :=
  mkArgs (arg_package config) (arg_repository config) (arg_version config).

(** The handlers of [run], the same in the two files: [sys.exit] passes
    through them. *)
Definition on_abort (a : abort) : Proc unit :=
  match a with
  | ArgumentError msg =>
      (call (print (msg_argument_error ++ msg)) ;;; exit 1)%proc
  | KeyboardInterrupt =>
      (call (print (newline ++ msg_interrupted)) ;;; exit 1)%proc
  | Raised e =>
      (call (print (msg_unexpected ++ str_of_exn e)) ;;; exit 1)%proc
  | SystemExit code => exit code
  end.

Section Program.

(** [parse_arguments]: the dictionary, or the way [argparse] ends the
    program (it exits with status 2 on a command line it rejects). *)
Variable parse_arguments : Proc Config.
Variable urlopen : Request -> N -> result Response.
Variable decode_utf8 : bytes -> result str.
Variable fromstring : str -> result Element.

Definition run : Proc unit :=
  ptry
    (config <- parse_arguments ;;
     run_stage1 config ;;;
     call (run_stage2 urlopen decode_utf8 fromstring (args_of config)) ;;;
     call (print (newline ++ msg_all_done)))%proc
    on_abort.

End Program.

(** *** The first stage on its own (src/stage1.py) *)

Module Stage1.

Definition validate_arguments (args : Config) : M bool :=
  try_except
    (if negb (contains colon (arg_package args))
     then raise (ValueError msg_need_colon)
     else if is_empty (arg_version args) || str_isspace (arg_version args)
     then raise (ValueError msg_need_version)
     else if (arg_max_depth args <=? 0)%Z
     then raise (ValueError msg_need_depth)
     else if is_empty (arg_repository args)
     then raise (ValueError msg_need_repository)
     else ret true)
    (fun e =>
       match e with
       | ValueError _ => print (msg_validation ++ str_of_exn e) ;;; ret false
       | _ => print (msg_validation_unexpected ++ str_of_exn e) ;;; ret false
       end).

Definition msg_config_open : str := u "=== КОНФИГУРАЦИЯ ПАРАМЕТРОВ ===".

Definition display_config (config : Config) : M unit :=
  print (newline ++ msg_config_open) ;;;
  print_items (items config) ;;;
  print (msg_config_close ++ newline).

Section Program.

Variable parse_arguments : Proc Config.

Definition run : Proc unit :=
  ptry
    (call (print msg_stage1) ;;;
     config <- parse_arguments ;;
     valid <- call (validate_arguments config) ;;
     (if negb valid
      then call (print msg_invalid_config) ;;; exit 1
      else pret tt) ;;;
     call (display_config config) ;;;
     call (print msg_stage1_done))%proc
    on_abort.

End Program.

End Stage1.

(** ** Vocabulary of the further statements *)

(** The exception is one of the two [urllib] raises for a failed request. *)
Definition is_url_error (e : exn) : bool :=
  match e with
  | HTTPError _ _ | URLError _ => true
  | _ => false
  end.

(** The exception the fetcher raises in place of the one it caught. *)
Definition fetch_failure (e : exn) : exn :=
  match e with
  | HTTPError code reason => http_failure code reason
  | URLError reason => Exception (msg_url_error ++ reason)
  | _ => Exception (msg_download_error ++ str_of_exn e)
  end.

(** The prefix the parser puts before the description of a failure. *)
Definition parser_prefix (e : exn) : str :=
  match e with
  | ParseError _ => msg_parse_error
  | _ => msg_extract_error
  end.

(** The line of the listing for the dependency at position [i]. *)
Definition dependency_line (i : N) (dep : Dependency) : str :=
  format_index i ++ u ". " ++ format_value (groupId dep) ++ u ":"
    ++ format_value (artifactId dep) ++ u ":"
    ++ format_value (version dep) ++ u " ["
    ++ format_value (scope dep) ++ u "]".

(** The lines of the listing for dependencies numbered from [i]. *)
Fixpoint dependency_lines (i : N) (deps : list Dependency) : list str :=
  match deps with
  | [] => []
  | dep :: rest => dependency_line i dep :: dependency_lines (i + 1) rest
  end.

(** The line of the configuration for one entry. *)
Definition item_line (item : str * pyval) : str :=
  format_key (fst item) ++ u ": " ++ format_pyval (snd item).

(** The version is empty or whitespace only. *)
Definition blank (s : str) : bool := forallb isspace s.

(** What the four checks of the validation accept. *)
Definition acceptable (config : Config) : bool :=
  contains colon (arg_package config)
  && negb (blank (arg_version config))
  && (0 <? arg_max_depth config)%Z
  && negb (is_empty (arg_repository config)).

(** A server that answers only the request the fetcher is to send: the
    address, the one header, and a time-out of 30. *)
Definition strict_server (pom_url : str) (answer : result Response)
  : Request -> N -> result Response :=
  fun req timeout =>
    match headers req with
    | [(k, v)] =>
        if Str.eqb (full_url req) pom_url && (timeout =? 30)
           && Str.eqb k (u "User-Agent")
           && Str.eqb v (u "Maven-Dependency-Visualizer/1.0")
        then answer
        else inl (URLError (u "unexpected request"))
    | _ => inl (URLError (u "unexpected request"))
    end.

(** A manifest with two dependencies, the second with a scope. *)
Definition two_text : str :=
  u "<project xmlns='http://maven.apache.org/POM/4.0.0'><dependencies><dependency><groupId>org.slf4j</groupId><artifactId>slf4j-api</artifactId><version>2.0.9</version></dependency><dependency><groupId>junit</groupId><artifactId>junit</artifactId><version/><scope>test</scope></dependency></dependencies></project>".

Definition slf4j_dependency : Element :=
  elem (u "dependency") None
    [elem (u "groupId") (Some (u "org.slf4j")) [];
     elem (u "artifactId") (Some (u "slf4j-api")) [];
     elem (u "version") (Some (u "2.0.9")) []].

Definition junit_test_dependency : Element :=
  elem (u "dependency") None
    [elem (u "groupId") (Some (u "junit")) [];
     elem (u "artifactId") (Some (u "junit")) [];
     elem (u "version") None [];
     elem (u "scope") (Some (u "test")) []].

Definition two_root : Element :=
  elem (u "project") None
    [elem (u "dependencies") None [slf4j_dependency; junit_test_dependency]].

(** Arguments whose version is whitespace only. *)
Definition blank_version_config : Config :=
  mkConfig (u "junit:junit") (u "https://example.com/repo/") (u "  ")
    false (u "dependency_graph.png") false 10 (u "").

Definition sample_args : Args :=
  mkArgs (u "junit:junit") (u "https://example.com/repo/") (u "4.13").

Definition malformed_text : str := u "<a><b></a>".

Definition sample_config : Config :=
  mkConfig (u "junit:junit") (u "https://example.com/repo/") (u "4.13")
    false (u "dependency_graph.png") false 10 (u "").

(** * Properties *)

(** ** Python strings and the two pure stages on examples *)

Lemma str_eqb_eq a b : Str.eqb a b = true <-> a = b.
Proof.
  unfold Str.eqb. destruct (list_eq_dec N.eq_dec a b); split; congruence.
Qed.

Example u_ascii : u "a:b/." = [97; 58; 98; 47; 46].
Proof. reflexivity. Qed.

Example u_cyrillic : u "Эт" = [1069; 1090].
Proof. reflexivity. Qed.

Example of_N_404 : of_N 404 = u "404".
Proof. reflexivity. Qed.

Example parse_package_name_spring :
  parse_package_name (u " org.springframework : spring-core ")
  = ([], inr (u "org.springframework", u "spring-core")).
Proof. reflexivity. Qed.

Example parse_package_name_second_colon :
  outcome (parse_package_name (u "g:a:jar")) = inr (u "g", u "a:jar").
Proof. reflexivity. Qed.

Example parse_package_name_no_colon :
  parse_package_name (u "junit")
  = ([msg_package_error ++ msg_no_colon], inl (ValueError msg_no_colon)).
Proof. reflexivity. Qed.

Example construct_pom_url_spring :
  construct_pom_url (u "org.springframework") (u "spring-core") (u "5.3.0")
    (u "https://repo1.maven.org/maven2")
  = u "https://repo1.maven.org/maven2/org/springframework/spring-core/5.3.0/spring-core-5.3.0.pom".
Proof. reflexivity. Qed.

(** ** The coordinate parser *)

Lemma contains_count c s : contains c s = false <-> count c s = 0%nat.
Proof.
  unfold contains, count. induction s as [|x s IH]; cbn [existsb count_occ].
  - tauto.
  - destruct (N.eq_dec x c) as [->|Hne].
    + rewrite N.eqb_refl. cbn. split; discriminate.
    + assert ((c =? x) = false) as -> by (apply N.eqb_neq; congruence).
      exact IH.
Qed.

Lemma count_app c s t : count c (s ++ t) = (count c s + count c t)%nat.
Proof. apply count_occ_app. Qed.

(** [split(sep, 1)] on a text that holds the separator: the part before its
    first occurrence and the part after. *)
Lemma split1_first sep s :
  contains sep s = true ->
  exists before after,
    s = before ++ sep :: after
    /\ contains sep before = false
    /\ split1 sep s = [before; after].
Proof.
  unfold contains. induction s as [|c s IH]; cbn [existsb split1];
    [discriminate|].
  destruct (c =? sep) eqn:E.
  - intros _. apply N.eqb_eq in E. subst c. now exists [], s.
  - rewrite N.eqb_sym, E. cbn [orb]. intro H.
    destruct (IH H) as (b & a & -> & Hb & Hs).
    exists (c :: b), a. rewrite Hs. cbn [existsb app].
    rewrite N.eqb_sym, E. now repeat split.
Qed.

Lemma lstrip_decomp s :
  exists l, s = l ++ lstrip s /\ forallb isspace l = true.
Proof.
  induction s as [|c s (l & Hl & Hs)]; [now exists []|].
  cbn [lstrip]. destruct (isspace c) eqn:E.
  - exists (c :: l). cbn [app forallb]. rewrite E, Hs. now rewrite <- Hl.
  - now exists [].
Qed.

Lemma lstrip_clean s : starts_clean (lstrip s) = true.
Proof.
  induction s as [|c s IH]; [reflexivity|].
  cbn [lstrip]. destruct (isspace c) eqn:E; [exact IH|].
  cbn. now rewrite E.
Qed.

Lemma rstrip_decomp s :
  exists r, s = rstrip s ++ r /\ forallb isspace r = true.
Proof.
  unfold rstrip. destruct (lstrip_decomp (rev s)) as (l & Hl & Hs).
  exists (rev l). split.
  - rewrite <- rev_app_distr, <- Hl. now rewrite rev_involutive.
  - rewrite forallb_forall in *. intros x Hx. apply Hs. now apply in_rev.
Qed.

Lemma rstrip_clean s : starts_clean (rev (rstrip s)) = true.
Proof. unfold rstrip. rewrite rev_involutive. apply lstrip_clean. Qed.

Lemma lstrip_keeps_last s c :
  isspace c = false -> exists t, lstrip (s ++ [c]) = t ++ [c].
Proof.
  intro Hc. induction s as [|x s (t & Ht)]; cbn [app lstrip].
  - rewrite Hc. now exists [].
  - destruct (isspace x); [now exists t|]. now exists (x :: s).
Qed.

Lemma rstrip_keeps_start s :
  starts_clean s = true -> starts_clean (rstrip s) = true.
Proof.
  destruct s as [|c s]; [reflexivity|]. cbn [starts_clean]. intro Hc.
  apply negb_true_iff in Hc. unfold rstrip. cbn [rev].
  destruct (lstrip_keeps_last (rev s) c Hc) as (t & ->).
  rewrite rev_unit. cbn. now rewrite Hc.
Qed.

(** [strip] takes whitespace, and only whitespace, off the two ends, and
    leaves none there. *)
Lemma strip_spec s :
  exists l r,
    s = l ++ strip s ++ r
    /\ forallb isspace l = true /\ forallb isspace r = true
    /\ trimmed (strip s) = true.
Proof.
  destruct (lstrip_decomp s) as (l & Hl & Hsl).
  destruct (rstrip_decomp (lstrip s)) as (r & Hr & Hsr).
  exists l, r. unfold strip. repeat split; try assumption.
  - now rewrite <- Hr.
  - unfold trimmed. rewrite rstrip_clean, andb_true_r.
    apply rstrip_keeps_start, lstrip_clean.
Qed.

Lemma contains_app c s t : contains c (s ++ t) = contains c s || contains c t.
Proof. apply existsb_app. Qed.

Lemma contains_middle c l m r :
  contains c (l ++ m ++ r) = false -> contains c m = false.
Proof.
  rewrite !contains_app. intro H.
  apply orb_false_iff in H as [_ H]. now apply orb_false_iff in H as [H _].
Qed.

Lemma split1_at sep before after :
  contains sep before = false ->
  split1 sep (before ++ sep :: after) = [before; after].
Proof.
  unfold contains. induction before as [|c b IH]; cbn [app split1 existsb].
  - intros _. now rewrite N.eqb_refl.
  - intro H. apply orb_false_iff in H as [Hc Hb].
    rewrite N.eqb_sym in Hc. now rewrite Hc, (IH Hb).
Qed.

Lemma parse_package_name_split package group artifact :
  package = group ++ colon :: artifact ->
  contains colon group = false ->
  parse_package_name package = ret (strip group, strip artifact).
Proof.
  intros -> Hg.
  assert (contains colon (group ++ colon :: artifact) = true) as Hc.
  { rewrite contains_app. cbn. now rewrite orb_true_r. }
  unfold parse_package_name. rewrite Hc, (split1_at _ _ _ Hg). reflexivity.
Qed.

(** C7: every text with exactly one [':'] is a group segment and an
    artifact segment, each with whitespace around it, on the two sides of
    the colon; the coordinate parser returns the two segments without that
    whitespace (and prints nothing), so that joining them with [':'] gives
    the text less the whitespace around each segment. *)
Theorem parse_package_name_rejoin package :
  count colon package = 1%nat ->
  exists lg group rg la artifact ra,
    package = lg ++ group ++ rg ++ u ":" ++ la ++ artifact ++ ra
    /\ forallb isspace (lg ++ rg ++ la ++ ra) = true
    /\ trimmed group = true /\ trimmed artifact = true
    /\ contains colon group = false /\ contains colon artifact = false
    /\ parse_package_name package = ret (group, artifact)
    /\ option_map rejoin (value (parse_package_name package))
       = Some (group ++ u ":" ++ artifact).
Proof.
  intro Hcount.
  assert (contains colon package = true) as Hc.
  { destruct (contains colon package) eqn:E; [reflexivity|].
    apply contains_count in E. congruence. }
  destruct (split1_first _ _ Hc) as (g & a & Heq & Hg & _).
  assert (contains colon a = false) as Ha.
  { apply contains_count. rewrite Heq in Hcount.
    change (g ++ colon :: a) with (g ++ [colon] ++ a) in Hcount.
    rewrite !count_app in Hcount. apply contains_count in Hg.
    rewrite Hg in Hcount. cbn in Hcount. lia. }
  destruct (strip_spec g) as (lg & rg & Hsg & Hlg & Hrg & Htg).
  destruct (strip_spec a) as (la & ra & Hsa & Hla & Hra & Hta).
  pose proof (parse_package_name_split _ _ _ Heq Hg) as Hparse.
  exists lg, (strip g), rg, la, (strip a), ra.
  repeat split; try assumption.
  - rewrite Heq. rewrite Hsg at 1. rewrite Hsa at 1.
    change (u ":") with [colon]. now rewrite <- !app_assoc.
  - rewrite !forallb_app, Hlg, Hrg, Hla, Hra. reflexivity.
  - rewrite Hsg in Hg. now apply contains_middle in Hg.
  - rewrite Hsa in Ha. now apply contains_middle in Ha.
  - rewrite Hparse. reflexivity.
Qed.

Lemma parse_package_name_rejoin_witness :
  count colon (u " org.springframework : spring-core ") = 1%nat
  /\ exists lg group rg la artifact ra,
       u " org.springframework : spring-core "
       = lg ++ group ++ rg ++ u ":" ++ la ++ artifact ++ ra
       /\ forallb isspace (lg ++ rg ++ la ++ ra) = true
       /\ trimmed group = true /\ trimmed artifact = true
       /\ contains colon group = false /\ contains colon artifact = false
       /\ parse_package_name (u " org.springframework : spring-core ")
          = ret (group, artifact)
       /\ option_map rejoin
            (value (parse_package_name (u " org.springframework : spring-core ")))
          = Some (group ++ u ":" ++ artifact).
Proof.
  split; [vm_compute; reflexivity|].
  apply (parse_package_name_rejoin (u " org.springframework : spring-core ")).
  vm_compute; reflexivity.
Defined.

Example rejoin_spring :
  option_map rejoin
    (value (parse_package_name (u " org.springframework : spring-core ")))
  = Some (u "org.springframework:spring-core").
Proof. vm_compute. reflexivity. Qed.

(** ** The repository URL builder *)

Lemma endswith_snoc c s x : endswith c (s ++ [x]) = (x =? c).
Proof. unfold endswith. now rewrite rev_unit. Qed.

Lemma endswith_true c s : endswith c s = true -> exists r, s = r ++ [c].
Proof.
  unfold endswith. destruct (rev s) as [|x t] eqn:E; [discriminate|].
  intro H. apply N.eqb_eq in H. subst x.
  exists (rev t). apply (f_equal (@rev _)) in E.
  now rewrite rev_involutive in E.
Qed.

Lemma drop_last_snoc (s : str) x : drop_last (s ++ [x]) = s.
Proof. apply removelast_last. Qed.

Lemma replace_length old new s : length (replace old new s) = length s.
Proof. apply length_map. Qed.

Lemma replace_nth old new s i :
  nth_error (replace old new s) i
  = option_map (fun c => if c =? old then new else c) (nth_error s i).
Proof. apply nth_error_map. Qed.

Lemma replace_removes old new s :
  old <> new -> contains old (replace old new s) = false.
Proof.
  intro Hne. unfold contains, replace.
  induction s as [|c s IH]; [reflexivity|].
  cbn [map existsb]. rewrite IH, orb_false_r.
  destruct (c =? old) eqn:E.
  - now apply N.eqb_neq.
  - rewrite N.eqb_sym. exact E.
Qed.

(** C2: for every groupId, artifactId, version and repository root the
    builder returns [root/groupPath/artifactId/version/artifactId-version.pom],
    where [root] is the repository root without one trailing ['/'] (the root
    itself when it has none) and [groupPath] is the groupId in which every
    ['.'] has become ['/'] and nothing else has changed; and the address of
    [org.springframework:spring-core] at version [5.3.0] in the Maven
    central repository is the one the specification gives. *)
Theorem construct_pom_url_layout :
  (forall group_id artifact_id version repository,
     exists root group_path,
       construct_pom_url group_id artifact_id version repository
       = root ++ u "/" ++ group_path ++ u "/" ++ artifact_id ++ u "/"
           ++ version ++ u "/" ++ artifact_id ++ u "-" ++ version ++ u ".pom"
       /\ (repository = root ++ u "/"
           \/ (repository = root /\ endswith slash repository = false))
       /\ length group_path = length group_id
       /\ (forall i,
             nth_error group_path i
             = option_map (fun c => if c =? dot then slash else c)
                 (nth_error group_id i))
       /\ contains dot group_path = false)
  /\ construct_pom_url (u "org.springframework") (u "spring-core") (u "5.3.0")
       (u "https://repo1.maven.org/maven2")
     = u "https://repo1.maven.org/maven2/org/springframework/spring-core/5.3.0/spring-core-5.3.0.pom".
Proof.
  split; [|vm_compute; reflexivity].
  intros g a v repo. unfold construct_pom_url.
  destruct (endswith slash repo) eqn:E.
  - destruct (endswith_true _ _ E) as (r & ->).
    exists r, (replace dot slash g). rewrite drop_last_snoc.
    repeat split.
    + now left.
    + apply replace_length.
    + apply replace_nth.
    + now apply replace_removes.
  - exists repo, (replace dot slash g). repeat split.
    + now right.
    + apply replace_length.
    + apply replace_nth.
    + now apply replace_removes.
Qed.

(** C8, as stated, fails for a root that ends in two slashes: with one of
    them removed the root still ends in a slash, which the builder strips
    in its turn, so the two addresses differ. *)
Lemma construct_pom_url_doubled_slash :
  ~ (forall group_id artifact_id version root,
       construct_pom_url group_id artifact_id version (root ++ u "/")
       = construct_pom_url group_id artifact_id version root).
Proof.
  intro claim.
  specialize (claim (u "junit") (u "junit") (u "4.13")
                (u "https://example.com/repo/")).
  vm_compute in claim. discriminate claim.
Qed.

(** C8 (amended): the builder is deterministic, and for every groupId,
    artifactId and version a root that does not end in ['/'] yields the
    same address with one ['/'] appended as without it. *)
Theorem construct_pom_url_trailing_slash
    group_id artifact_id version root :
  endswith slash root = false ->
  construct_pom_url group_id artifact_id version (root ++ u "/")
  = construct_pom_url group_id artifact_id version root
  /\ (forall group_id' artifact_id' version' root',
        group_id' = group_id -> artifact_id' = artifact_id ->
        version' = version -> root' = root ->
        construct_pom_url group_id' artifact_id' version' root'
        = construct_pom_url group_id artifact_id version root).
Proof.
  intro H. split.
  - unfold construct_pom_url. rewrite H.
    change (u "/") with [slash].
    now rewrite endswith_snoc, N.eqb_refl, drop_last_snoc.
  - intros; now subst.
Qed.

Lemma construct_pom_url_trailing_slash_witness :
  construct_pom_url (u "junit") (u "junit") (u "4.13")
    (u "https://example.com/repo" ++ u "/")
  = construct_pom_url (u "junit") (u "junit") (u "4.13")
      (u "https://example.com/repo")
  /\ (forall group_id' artifact_id' version' root',
        group_id' = u "junit" -> artifact_id' = u "junit" ->
        version' = u "4.13" -> root' = u "https://example.com/repo" ->
        construct_pom_url group_id' artifact_id' version' root'
        = construct_pom_url (u "junit") (u "junit") (u "4.13")
            (u "https://example.com/repo")).
Proof.
  apply (construct_pom_url_trailing_slash (u "junit") (u "junit") (u "4.13")
           (u "https://example.com/repo")).
  vm_compute; reflexivity.
Defined.

(** ** The manifest fetcher *)

Lemma digits_are_digits d : forallb is_digit (digits d) = true.
Proof. induction d; cbn [digits forallb]; rewrite ?IHd; reflexivity. Qed.

Lemma digits_inj d d' : digits d = digits d' -> d = d'.
Proof.
  revert d'. induction d; destruct d'; cbn [digits]; intro H;
    try discriminate H; try reflexivity;
    injection H as H; f_equal; now apply IHd.
Qed.

Lemma of_N_inj n n' : of_N n = of_N n' -> n = n'.
Proof.
  unfold of_N. intro H. apply digits_inj in H.
  now apply DecimalN.Unsigned.to_uint_inj.
Qed.

(** Two texts that begin with a run of digits closed by a character that is
    not a digit begin with the same run. *)
Lemma digit_run_unique (d d' : str) x x' r r' :
  forallb is_digit d = true -> forallb is_digit d' = true ->
  is_digit x = false -> is_digit x' = false ->
  d ++ x :: r = d' ++ x' :: r' -> d = d'.
Proof.
  intros Hd Hd' Hx Hx'. revert d' Hd'.
  induction d as [|c d IH]; intros [|c' d'] Hd' H; cbn in *.
  - reflexivity.
  - injection H as -> _. apply andb_true_iff in Hd' as [Hc _]. congruence.
  - injection H as -> _. apply andb_true_iff in Hd as [Hc _]. congruence.
  - injection H as -> H.
    apply andb_true_iff in Hd as [_ Hd].
    apply andb_true_iff in Hd' as [_ Hd'].
    f_equal. now apply IH.
Qed.

Lemma http_failure_code code reason code' reason' :
  http_failure code reason = http_failure code' reason' -> code' = code.
Proof.
  unfold http_failure. intros [= H].
  symmetry. apply of_N_inj.
  apply (digit_run_unique (of_N code) (of_N code') 32 32
           (u "- " ++ reason) (u "- " ++ reason')
           (digits_are_digits _) (digits_are_digits _)
           eq_refl eq_refl H).
Qed.

Lemma status_failure_code code code' :
  status_failure code = status_failure code' -> code' = code.
Proof.
  unfold status_failure. intros [= H].
  symmetry. now apply of_N_inj.
Qed.

(** A failed download ends the stage: the parser is not reached, whatever
    the XML reader would do. *)
Lemma run_stage2_stops_on_failed_download
    urlopen decode_utf8 fromstring args g a out e :
  parse_package_name (package args) = ret (g, a) ->
  download_pom_file urlopen decode_utf8
    (construct_pom_url g a (version_arg args) (repository args))
  = (out, inl e) ->
  run_stage2 urlopen decode_utf8 fromstring args
  = ([msg_stage2;
      msg_package ++ g ++ u ":" ++ a ++ u ":" ++ version_arg args;
      msg_repository ++ repository args;
      msg_pom_url
        ++ construct_pom_url g a (version_arg args) (repository args)]
       ++ out,
     inl e).
Proof.
  intros Hp Hd. unfold run_stage2. rewrite Hp.
  unfold bind, print, ret. cbv beta iota. rewrite Hd. reflexivity.
Qed.

(** C3: for every status code other than 200 -- so for every code outside
    200..299 -- the fetcher fails, whether [urlopen] raises the response as
    an [HTTPError] or hands it over as a response object; the exception it
    raises carries the code in decimal, from which the code can be read
    back; and the fetcher returns content only for a response of status
    200.  A stage whose download fails in this way ends with that
    exception before the manifest parser is reached, so that no dependency
    sequence is produced. *)
Theorem fetcher_fails_unless_status_200 urlopen decode_utf8 pom_url code :
  code <> 200 ->
  (forall reason,
      urlopen (request_for pom_url) 30 = inl (HTTPError code reason) ->
      download_pom_file urlopen decode_utf8 pom_url
      = ([msg_downloading ++ pom_url], inl (http_failure code reason)))
  /\ (forall reason fromstring args g a,
        urlopen (request_for pom_url) 30 = inl (HTTPError code reason) ->
        parse_package_name (package args) = ret (g, a) ->
        construct_pom_url g a (version_arg args) (repository args) = pom_url ->
        outcome (run_stage2 urlopen decode_utf8 fromstring args)
        = inl (http_failure code reason))
  /\ (forall response,
        urlopen (request_for pom_url) 30 = inr response ->
        status response = code ->
        download_pom_file urlopen decode_utf8 pom_url
        = ([msg_downloading ++ pom_url], inl (status_failure code)))
  /\ (forall reason code' reason',
        http_failure code reason = http_failure code' reason' -> code' = code)
  /\ (forall code', status_failure code = status_failure code' -> code' = code)
  /\ (forall content,
        outcome (download_pom_file urlopen decode_utf8 pom_url) = inr content ->
        exists response raw,
          urlopen (request_for pom_url) 30 = inr response
          /\ status response = 200
          /\ read response = inr raw /\ decode_utf8 raw = inr content).
Proof.
  intro Hcode.
  assert (forall reason,
             urlopen (request_for pom_url) 30 = inl (HTTPError code reason) ->
             download_pom_file urlopen decode_utf8 pom_url
             = ([msg_downloading ++ pom_url], inl (http_failure code reason)))
    as Hraised.
  { intros reason H. unfold download_pom_file.
    fold (request_for pom_url). rewrite H. reflexivity. }
  repeat split.
  - exact Hraised.
  - intros reason fromstring args g a H Hp Hu. subst pom_url.
    now rewrite (run_stage2_stops_on_failed_download _ _ _ _ _ _ _ _
                   Hp (Hraised reason H)).
  - intros response H Hs. unfold download_pom_file.
    fold (request_for pom_url). rewrite H.
    unfold lift, bind, print, try_except. cbv beta iota.
    rewrite Hs. apply N.eqb_neq in Hcode. rewrite Hcode. reflexivity.
  - intros reason code' reason'. apply http_failure_code.
  - intros code'. apply status_failure_code.
  - intros content. unfold download_pom_file.
    fold (request_for pom_url).
    destruct (urlopen (request_for pom_url) 30) as [e|response] eqn:E.
    + destruct e; discriminate.
    + unfold lift, bind, print, try_except, outcome. cbv beta iota.
      destruct (status response =? 200) eqn:Es; [|discriminate].
      destruct (read response) as [e|raw] eqn:Er; [destruct e; discriminate|].
      destruct (decode_utf8 raw) as [e|c] eqn:Ed; [destruct e; discriminate|].
      cbn. intros [= <-]. exists response, raw.
      apply N.eqb_eq in Es. now repeat split.
Qed.

Lemma fetcher_fails_unless_status_200_witness :
  404 <> 200
  /\ download_pom_file (fun _ _ => inl (HTTPError 404 (u "Not Found")))
       (fun raw => inr raw) sample_url
     = ([msg_downloading ++ sample_url],
        inl (http_failure 404 (u "Not Found")))
  /\ download_pom_file (fun _ _ => inr (mkResponse 204 (inr [])))
       (fun raw => inr raw) sample_url
     = ([msg_downloading ++ sample_url], inl (status_failure 204)).
Proof.
  split; [discriminate|]. split.
  - apply (fetcher_fails_unless_status_200
             (fun _ _ => inl (HTTPError 404 (u "Not Found")))
             (fun raw => inr raw) sample_url 404 ltac:(discriminate)).
    reflexivity.
  - apply (fetcher_fails_unless_status_200
             (fun _ _ => inr (mkResponse 204 (inr [])))
             (fun raw => inr raw) sample_url 204 ltac:(discriminate)
             : _ /\ _) with (mkResponse 204 (inr [])); reflexivity.
Defined.

Example download_ok :
  download_pom_file (fun _ _ => inr (mkResponse 200 (inr junit_text)))
    (fun raw => inr raw) sample_url
  = ([msg_downloading ++ sample_url; msg_downloaded], inr junit_text).
Proof. vm_compute. reflexivity. Qed.

Example download_unreachable :
  download_pom_file (fun _ _ => inl (URLError (u "timed out")))
    (fun raw => inr raw) sample_url
  = ([msg_downloading ++ sample_url],
     inl (Exception (msg_url_error ++ u "timed out"))).
Proof. vm_compute. reflexivity. Qed.

(** ** The stage on two runs *)

Example run_stage2_junit :
  run_stage2 (fun _ _ => inr (mkResponse 200 (inr junit_text)))
    (fun raw => inr raw) (reads junit_text junit_root)
    (mkArgs (u "junit:junit") (u "https://example.com/repo/") (u "4.13"))
  = ([msg_stage2;
      msg_package ++ u "junit:junit:4.13";
      msg_repository ++ u "https://example.com/repo/";
      msg_pom_url ++ sample_url;
      msg_downloading ++ sample_url;
      msg_downloaded;
      newline ++ msg_direct_open ++ u "junit:junit:4.13" ++ msg_direct_close;
      u " 1. junit:junit:N/A [compile]";
      newline ++ msg_total ++ u "1";
      msg_rule ++ newline;
      msg_stage2_done],
     inr tt).
Proof. vm_compute. reflexivity. Qed.

Example run_stage2_not_found :
  run_stage2 (fun _ _ => inl (HTTPError 404 (u "Not Found")))
    (fun raw => inr raw) (reads junit_text junit_root)
    (mkArgs (u "junit:junit") (u "https://example.com/repo/") (u "4.13"))
  = ([msg_stage2;
      msg_package ++ u "junit:junit:4.13";
      msg_repository ++ u "https://example.com/repo/";
      msg_pom_url ++ sample_url;
      msg_downloading ++ sample_url],
     inl (http_failure 404 (u "Not Found"))).
Proof. vm_compute. reflexivity. Qed.

(** ** Element trees and paths *)

Lemma filter_flat_map {A B} (p : B -> bool) (f : A -> list B) (l : list A) :
  filter p (flat_map f l) = flat_map (fun a => filter p (f a)) l.
Proof.
  induction l as [|a l IH]; simpl; [reflexivity|].
  now rewrite filter_app, IH.
Qed.

Lemma flat_map_ext_Forall {A B} (f g : A -> list B) (l : list A) :
  Forall (fun a => f a = g a) l -> flat_map f l = flat_map g l.
Proof.
  induction 1 as [|a l Ha _ IH]; simpl; [reflexivity|].
  now rewrite Ha, IH.
Qed.

Lemma iter_filter t e : iter t e = filter (has_tag t) (iter_all e).
Proof.
  induction e as [t' x cs IH] using Element_nested_ind.
  cbn [iter iter_all filter]. unfold has_tag at 1. cbn [tag].
  rewrite filter_flat_map.
  rewrite (flat_map_ext_Forall _ _ _ IH).
  now destruct (Str.eqb t' t).
Qed.

Lemma descendants_filter t e :
  flat_map (iter t) (children e) = filter (has_tag t) (descendants e).
Proof.
  unfold descendants. rewrite filter_flat_map.
  apply flat_map_ext_Forall, Forall_forall. intros c _. apply iter_filter.
Qed.

Lemma iter_all_cons e : iter_all e = e :: descendants e.
Proof. now destruct e. Qed.

(** A name with the prefix [maven] stands for the tag of the POM
    namespace, whatever follows the prefix. *)
Lemma qualified_maven local :
  qualified ns (u "maven:" ++ local) = inr (qname local).
Proof. reflexivity. Qed.

Lemma find_child local e :
  find e (Child (u "maven:" ++ local)) ns = inr (child local e).
Proof. unfold find, iterfind. now rewrite qualified_maven. Qed.

Lemma findall_child local e :
  findall e (Child (u "maven:" ++ local)) ns
  = inr (filter (has_tag (qname local)) (children e)).
Proof. unfold findall, iterfind. now rewrite qualified_maven. Qed.

Lemma find_descendant local e :
  find e (Descendant (u "maven:" ++ local)) ns
  = inr (hd_error (filter (has_tag (qname local)) (descendants e))).
Proof.
  unfold find, iterfind. rewrite qualified_maven.
  now rewrite descendants_filter.
Qed.

(** ** The loop of the manifest parser *)

Lemma extract_dependency_eq dep acc :
  extract_dependency dep acc = ([], inr (acc ++ appended dep)).
Proof.
  unfold extract_dependency.
  change (u "maven:groupId") with (u "maven:" ++ u "groupId").
  change (u "maven:artifactId") with (u "maven:" ++ u "artifactId").
  change (u "maven:version") with (u "maven:" ++ u "version").
  change (u "maven:scope") with (u "maven:" ++ u "scope").
  rewrite !find_child.
  unfold appended, record_of, lift, bind, ret, text_or.
  destruct (child (u "groupId") dep), (child (u "artifactId") dep);
    cbn [app]; rewrite ?app_nil_r; reflexivity.
Qed.

Lemma for_dep_elem_eq deps : forall acc,
  for_dep_elem deps acc = ([], inr (acc ++ records deps)).
Proof.
  induction deps as [|dep rest IH]; intro acc; cbn [for_dep_elem records].
  - unfold ret. now rewrite app_nil_r.
  - rewrite extract_dependency_eq. unfold bind. rewrite IH.
    unfold appended. destruct (record_of dep); cbn [app].
    + now rewrite <- app_assoc.
    + now rewrite app_nil_r.
Qed.

(** What the parser does with a document that is well-formed. *)
Lemma parse_well_formed fromstring pom root :
  fromstring pom = inr root ->
  parse_dependencies_from_pom fromstring pom
  = match dependencies_elem root with
    | Some d => ([], inr (records (dependency_elems d)))
    | None => ([msg_no_dependencies], inr [])
    end.
Proof.
  intro H. unfold parse_dependencies_from_pom. rewrite H.
  change (u "maven:dependencies") with (u "maven:" ++ u "dependencies").
  change (u "maven:dependency") with (u "maven:" ++ u "dependency").
  unfold lift, bind. cbv beta iota.
  rewrite find_descendant. fold (dependencies_elem root).
  destruct (dependencies_elem root) as [d|].
  - rewrite findall_child. fold (dependency_elems d).
    rewrite for_dep_elem_eq. reflexivity.
  - reflexivity.
Qed.

Lemma parse_outcome fromstring pom root :
  fromstring pom = inr root ->
  outcome (parse_dependencies_from_pom fromstring pom)
  = inr (records (declared root)).
Proof.
  intro H. rewrite (parse_well_formed _ _ _ H). unfold declared.
  now destruct (dependencies_elem root).
Qed.

(** ** Records and the elements they come from *)

Lemma records_In r deps :
  In r (records deps) -> exists dep, In dep deps /\ record_of dep = Some r.
Proof.
  induction deps as [|dep rest IH]; cbn [records]; [intros []|].
  destruct (record_of dep) as [r'|] eqn:E.
  - intros [<-|H].
    + exists dep. split; [now left | assumption].
    + destruct (IH H) as (d & Hd & Hr). exists d. split; [now right | assumption].
  - intro H. destruct (IH H) as (d & Hd & Hr).
    exists d. split; [now right | assumption].
Qed.

Lemma In_records dep r deps :
  In dep deps -> record_of dep = Some r -> In r (records deps).
Proof.
  induction deps as [|d rest IH]; cbn [records]; [intros []|].
  intros [->|H] E.
  - rewrite E. now left.
  - destruct (record_of d); [right|]; now apply IH.
Qed.

Lemma record_of_Some dep r :
  record_of dep = Some r ->
  exists g a,
    child (u "groupId") dep = Some g /\ child (u "artifactId") dep = Some a
    /\ groupId r = text g /\ artifactId r = text a
    /\ version r = text_or (u "N/A") (child (u "version") dep)
    /\ scope r = text_or (u "compile") (child (u "scope") dep).
Proof.
  unfold record_of.
  destruct (child (u "groupId") dep) as [g|]; [|discriminate].
  destruct (child (u "artifactId") dep) as [a|]; [|discriminate].
  intros [= <-]. exists g, a. cbn. repeat split; reflexivity.
Qed.

Lemma lacks_field_record_of dep :
  lacks_field dep = true <-> record_of dep = None.
Proof.
  unfold lacks_field, record_of.
  destruct (child (u "groupId") dep), (child (u "artifactId") dep);
    split; congruence.
Qed.

Lemma records_length deps :
  (length (records deps) + length (filter lacks_field deps) = length deps)%nat.
Proof.
  induction deps as [|dep rest IH]; [reflexivity|].
  cbn [records filter].
  destruct (record_of dep) eqn:E.
  - assert (lacks_field dep = false) as ->.
    { destruct (lacks_field dep) eqn:L; [|reflexivity].
      apply lacks_field_record_of in L. congruence. }
    cbn [length]. lia.
  - apply lacks_field_record_of in E. rewrite E. cbn [length]. lia.
Qed.

Example parse_junit :
  parse_dependencies_from_pom (reads junit_text junit_root) junit_text
  = ([], inr [mkDependency (Some (u "junit")) (Some (u "junit"))
                (Some (u "N/A")) (Some (u "compile"))]).
Proof. vm_compute. reflexivity. Qed.

Example parse_empty_group :
  parse_dependencies_from_pom (reads empty_group_text empty_group_root)
    empty_group_text
  = ([], inr [mkDependency None (Some (u "junit"))
                (Some (u "N/A")) (Some (u "compile"))]).
Proof. vm_compute. reflexivity. Qed.

Example parse_bare :
  parse_dependencies_from_pom (reads bare_text bare_root) bare_text
  = ([msg_no_dependencies], inr []).
Proof. vm_compute. reflexivity. Qed.

Example parse_root_list :
  parse_dependencies_from_pom (reads root_list_text root_list_root)
    root_list_text
  = ([msg_no_dependencies], inr []).
Proof. vm_compute. reflexivity. Qed.

Example parse_malformed :
  parse_dependencies_from_pom (reads junit_text junit_root) (u "<a><b></a>")
  = ([], inl (Exception (msg_parse_error
                           ++ u "syntax error: line 1, column 0"))).
Proof. vm_compute. reflexivity. Qed.

Example parse_managed :
  parse_dependencies_from_pom (reads managed_text managed_root) managed_text
  = ([], inr [mkDependency (Some (u "org.bom")) (Some (u "bom"))
                (Some (u "1.0")) (Some (u "import"))]).
Proof. vm_compute. reflexivity. Qed.

Example parse_no_namespace :
  parse_dependencies_from_pom (reads no_namespace_text no_namespace_root)
    no_namespace_text
  = ([msg_no_dependencies], inr []).
Proof. vm_compute. reflexivity. Qed.

Lemma records_app l1 l2 : records (l1 ++ l2) = records l1 ++ records l2.
Proof.
  induction l1 as [|d l1 IH]; [reflexivity|].
  cbn [app records]. rewrite IH. now destruct (record_of d).
Qed.

(** An element lacking a child can be taken out of the list the loop goes
    through without changing what the loop yields. *)
Lemma for_dep_elem_skips before dep after acc :
  lacks_field dep = true ->
  for_dep_elem (before ++ dep :: after) acc
  = for_dep_elem (before ++ after) acc.
Proof.
  intro H. apply lacks_field_record_of in H.
  rewrite !for_dep_elem_eq, !records_app. cbn [records]. now rewrite H.
Qed.

(** ** The first match of a search *)

Lemma hd_error_filter_Some {A} (p : A -> bool) l d :
  hd_error (filter p l) = Some d ->
  exists before after,
    l = before ++ d :: after /\ p d = true /\ existsb p before = false.
Proof.
  induction l as [|x l IH]; cbn [filter]; [discriminate|].
  destruct (p x) eqn:E.
  - intros [= ->]. now exists [], l.
  - intro H. destruct (IH H) as (b & a & -> & Hd & Hb).
    exists (x :: b), a. cbn. now rewrite E.
Qed.

Lemma hd_error_filter_None {A} (p : A -> bool) l :
  hd_error (filter p l) = None <-> existsb p l = false.
Proof.
  induction l as [|x l IH]; cbn [filter existsb]; [tauto|].
  destruct (p x); cbn; [split; discriminate | exact IH].
Qed.

Lemma filter_none {A} (p : A -> bool) l :
  existsb p l = false -> filter p l = [].
Proof.
  induction l as [|x l IH]; cbn; [reflexivity|].
  destruct (p x); cbn; [discriminate | exact IH].
Qed.

Lemma is_prefix_app p s : is_prefix p (p ++ s) = true.
Proof.
  induction p as [|a p IH]; [reflexivity|].
  cbn. now rewrite N.eqb_refl.
Qed.

Lemma has_tag_in_namespace local e :
  has_tag (qname local) e = true -> in_maven_namespace e = true.
Proof.
  unfold has_tag, in_maven_namespace. intro H. apply str_eqb_eq in H.
  rewrite H. unfold qname.
  replace (u "{" ++ maven_uri ++ u "}" ++ local)
    with ((u "{" ++ maven_uri ++ u "}") ++ local)
    by now rewrite <- !app_assoc.
  apply is_prefix_app.
Qed.

Lemma existsb_impl {A} (p q : A -> bool) l :
  (forall x, p x = true -> q x = true) ->
  existsb q l = false -> existsb p l = false.
Proof.
  intros Hpq. induction l as [|x l IH]; cbn; [reflexivity|].
  intro H. apply orb_false_iff in H as [Hx Hl].
  rewrite (IH Hl), orb_false_r.
  destruct (p x) eqn:E; [|reflexivity]. apply Hpq in E. congruence.
Qed.

(** ** The manifest parser: which elements become records *)

(** C1, as stated, fails: a record can carry an absent group field.  For
    the manifest [empty_group_text], whose first dependency has an empty
    [<groupId/>], the parser emits a record whose [groupId] is [None]. *)
Lemma parser_emits_absent_group_field :
  ~ (forall fromstring pom root out,
        fromstring pom = inr root ->
        outcome (parse_dependencies_from_pom fromstring pom) = inr out ->
        Forall (fun r => non_empty (groupId r) /\ non_empty (artifactId r))
          out).
Proof.
  intro claim.
  specialize (claim (reads empty_group_text empty_group_root)
                empty_group_text empty_group_root _
                ltac:(vm_compute; reflexivity)
                ltac:(rewrite parse_empty_group; reflexivity)).
  inversion claim as [|r rest [(s & Hs & _) _] _]; subst.
  discriminate Hs.
Qed.

(** C1 (amended): for every well-formed manifest the parser returns a
    sequence, each of whose records comes from a dependency element that has
    both a [groupId] and an [artifactId] child element and carries the text
    of these two children, so that its group and artifact fields are
    non-empty whenever the text of the two children is.  A dependency
    element lacking either child is passed over without output or error, and
    the sequence is the one the parser would return without that element:
    its length is the number of dependency elements less one for each
    element lacking a child. *)
Theorem parser_records_have_both_children fromstring pom root :
  fromstring pom = inr root ->
  exists out,
    outcome (parse_dependencies_from_pom fromstring pom) = inr out
    /\ Forall (fun r => exists dep g a,
                  In dep (declared root)
                  /\ child (u "groupId") dep = Some g
                  /\ child (u "artifactId") dep = Some a
                  /\ groupId r = text g /\ artifactId r = text a
                  /\ (non_empty (text g) -> non_empty (groupId r))
                  /\ (non_empty (text a) -> non_empty (artifactId r))) out
    /\ (forall dep, lacks_field dep = true ->
          forall acc, extract_dependency dep acc = ret acc)
    /\ (forall before dep after acc, lacks_field dep = true ->
          for_dep_elem (before ++ dep :: after) acc
          = for_dep_elem (before ++ after) acc)
    /\ (length out + length (filter lacks_field (declared root))
        = length (declared root))%nat.
Proof.
  intro H. exists (records (declared root)).
  split; [now apply parse_outcome|]. split; [|split; [|split]].
  - apply Forall_forall. intros r Hr.
    apply records_In in Hr as (dep & Hdep & Hrec).
    apply record_of_Some in Hrec as (g & a & Hg & Ha & Hgr & Har & _).
    exists dep, g, a. rewrite Hgr, Har. now repeat split.
  - intros dep Hl acc. rewrite extract_dependency_eq. unfold appended.
    apply lacks_field_record_of in Hl. rewrite Hl. unfold ret.
    now rewrite app_nil_r.
  - intros. now apply for_dep_elem_skips.
  - apply records_length.
Qed.

Lemma parser_records_have_both_children_witness :
  reads empty_group_text empty_group_root empty_group_text
  = inr empty_group_root
  /\ exists out,
       outcome (parse_dependencies_from_pom
                  (reads empty_group_text empty_group_root) empty_group_text)
       = inr out
       /\ Forall (fun r => exists dep g a,
                     In dep (declared empty_group_root)
                     /\ child (u "groupId") dep = Some g
                     /\ child (u "artifactId") dep = Some a
                     /\ groupId r = text g /\ artifactId r = text a
                     /\ (non_empty (text g) -> non_empty (groupId r))
                     /\ (non_empty (text a) -> non_empty (artifactId r))) out
       /\ (forall dep, lacks_field dep = true ->
             forall acc, extract_dependency dep acc = ret acc)
       /\ (forall before dep after acc, lacks_field dep = true ->
             for_dep_elem (before ++ dep :: after) acc
             = for_dep_elem (before ++ after) acc)
       /\ (length out + length (filter lacks_field (declared empty_group_root))
           = length (declared empty_group_root))%nat.
Proof.
  split; [vm_compute; reflexivity|].
  apply (parser_records_have_both_children
           (reads empty_group_text empty_group_root) empty_group_text
           empty_group_root).
  vm_compute; reflexivity.
Defined.

(** C4: for every well-formed manifest in which no element below the root
    is a [dependencies] element of the POM namespace, or in which the
    dependency list has no [dependency] child, the parser returns the empty
    sequence and does not fail. *)
Theorem parser_without_dependencies_returns_empty fromstring pom root :
  fromstring pom = inr root ->
  existsb (has_tag (qname (u "dependencies"))) (descendants root) = false
  \/ (exists d,
        dependencies_elem root = Some d
        /\ existsb (has_tag (qname (u "dependency"))) (children d) = false) ->
  outcome (parse_dependencies_from_pom fromstring pom) = inr [].
Proof.
  intros H [Habsent | (d & Hd & Hempty)];
    rewrite (parse_outcome _ _ _ H); unfold declared.
  - apply hd_error_filter_None in Habsent.
    unfold dependencies_elem. now rewrite Habsent.
  - rewrite Hd. unfold dependency_elems. now rewrite (filter_none _ _ Hempty).
Qed.

Lemma parser_without_dependencies_returns_empty_witness :
  outcome (parse_dependencies_from_pom (reads bare_text bare_root) bare_text)
  = inr []
  /\ outcome (parse_dependencies_from_pom
                (reads empty_list_text empty_list_root) empty_list_text)
     = inr [].
Proof.
  split.
  - apply (parser_without_dependencies_returns_empty
             (reads bare_text bare_root) bare_text bare_root).
    + vm_compute; reflexivity.
    + left. vm_compute; reflexivity.
  - apply (parser_without_dependencies_returns_empty
             (reads empty_list_text empty_list_root) empty_list_text
             empty_list_root).
    + vm_compute; reflexivity.
    + right. exists (elem (u "dependencies") None []).
      split; vm_compute; reflexivity.
Defined.

(** C5: for every well-formed manifest and every dependency element of it
    that has a group and an artifact identifier, the parser's output holds
    the record the loop builds for that element; when the element has no
    [version] child the record's version is ["N/A"], and when it has no
    [scope] child the record's scope is ["compile"]. *)
Theorem parser_defaults_version_and_scope fromstring pom root dep g a :
  fromstring pom = inr root ->
  In dep (declared root) ->
  child (u "groupId") dep = Some g ->
  child (u "artifactId") dep = Some a ->
  exists r out,
    outcome (parse_dependencies_from_pom fromstring pom) = inr out
    /\ In r out
    /\ (forall acc, extract_dependency dep acc = ret (acc ++ [r]))
    /\ groupId r = text g /\ artifactId r = text a
    /\ (child (u "version") dep = None -> version r = Some (u "N/A"))
    /\ (child (u "scope") dep = None -> scope r = Some (u "compile")).
Proof.
  intros H Hin Hg Ha.
  assert (exists r, record_of dep = Some r) as [r Hr].
  { unfold record_of. rewrite Hg, Ha. eauto. }
  exists r, (records (declared root)).
  split; [now apply parse_outcome|].
  split; [now apply (In_records dep)|].
  split.
  { intro acc. rewrite extract_dependency_eq. unfold appended.
    now rewrite Hr. }
  apply record_of_Some in Hr as (g' & a' & Hg' & Ha' & Hgr & Har & Hv & Hs).
  rewrite Hg in Hg'. rewrite Ha in Ha'.
  injection Hg' as <-. injection Ha' as <-.
  repeat split; try assumption.
  - intro Hnone. now rewrite Hv, Hnone.
  - intro Hnone. now rewrite Hs, Hnone.
Qed.

Lemma parser_defaults_version_and_scope_witness :
  exists r out,
    outcome (parse_dependencies_from_pom (reads junit_text junit_root)
               junit_text) = inr out
    /\ In r out
    /\ (forall acc, extract_dependency junit_dependency acc = ret (acc ++ [r]))
    /\ groupId r = Some (u "junit") /\ artifactId r = Some (u "junit")
    /\ (child (u "version") junit_dependency = None
        -> version r = Some (u "N/A"))
    /\ (child (u "scope") junit_dependency = None
        -> scope r = Some (u "compile")).
Proof.
  apply (parser_defaults_version_and_scope
           (reads junit_text junit_root) junit_text junit_root
           junit_dependency
           (elem (u "groupId") (Some (u "junit")) [])
           (elem (u "artifactId") (Some (u "junit")) [])).
  - vm_compute; reflexivity.
  - vm_compute. left; reflexivity.
  - vm_compute; reflexivity.
  - vm_compute; reflexivity.
Defined.

(** C6: whenever the XML reader rejects the text as not well-formed, the
    parser fails with the exception whose message is the parse-error prefix
    followed by the reader's description of the syntax error; it prints
    nothing and returns no dependency sequence, partial or otherwise. *)
Theorem parser_rejects_malformed_xml fromstring pom description :
  fromstring pom = inl (ParseError description) ->
  parse_dependencies_from_pom fromstring pom
  = ([], inl (Exception (msg_parse_error ++ description)))
  /\ forall out,
       outcome (parse_dependencies_from_pom fromstring pom) <> inr out.
Proof.
  intro H.
  assert (parse_dependencies_from_pom fromstring pom
          = ([], inl (Exception (msg_parse_error ++ description)))) as E.
  { unfold parse_dependencies_from_pom. rewrite H. reflexivity. }
  split; [exact E|]. intros out. rewrite E. discriminate.
Qed.

Lemma parser_rejects_malformed_xml_witness :
  parse_dependencies_from_pom (reads junit_text junit_root) (u "<a><b></a>")
  = ([], inl (Exception (msg_parse_error
                           ++ u "syntax error: line 1, column 0")))
  /\ forall out,
       outcome (parse_dependencies_from_pom (reads junit_text junit_root)
                  (u "<a><b></a>")) <> inr out.
Proof.
  apply (parser_rejects_malformed_xml (reads junit_text junit_root)
           (u "<a><b></a>") (u "syntax error: line 1, column 0")).
  vm_compute; reflexivity.
Defined.

(** C9: for every well-formed manifest none of whose elements is in the
    Maven POM namespace, the parser returns the empty sequence (and reports
    that no dependencies were found), whatever the document declares. *)
Theorem parser_ignores_other_namespaces fromstring pom root :
  fromstring pom = inr root ->
  existsb in_maven_namespace (iter_all root) = false ->
  parse_dependencies_from_pom fromstring pom = ([msg_no_dependencies], inr []).
Proof.
  intros H Hns. rewrite (parse_well_formed _ _ _ H).
  rewrite iter_all_cons in Hns. cbn [existsb] in Hns.
  apply orb_false_iff in Hns as [_ Hns].
  assert (dependencies_elem root = None) as ->; [|reflexivity].
  apply hd_error_filter_None.
  apply (existsb_impl _ in_maven_namespace); [|exact Hns].
  intro e. apply has_tag_in_namespace.
Qed.

Lemma parser_ignores_other_namespaces_witness :
  existsb in_maven_namespace (iter_all no_namespace_root) = false
  /\ parse_dependencies_from_pom (reads no_namespace_text no_namespace_root)
       no_namespace_text
     = ([msg_no_dependencies], inr []).
Proof.
  split; [vm_compute; reflexivity|].
  apply (parser_ignores_other_namespaces
           (reads no_namespace_text no_namespace_root) no_namespace_text
           no_namespace_root); vm_compute; reflexivity.
Defined.

(** C10: the parser works on the first [dependencies] element of the POM
    namespace among the elements below the root, in document order,
    wherever in the document it stands, and its output is made of the
    records of that one element's own [dependency] children; when there is
    no such element its output is empty. *)
Theorem parser_takes_first_dependencies_descendant fromstring pom root :
  fromstring pom = inr root ->
  (existsb (has_tag (qname (u "dependencies"))) (descendants root) = false
   /\ outcome (parse_dependencies_from_pom fromstring pom) = inr [])
  \/ (exists before d after,
        descendants root = before ++ d :: after
        /\ existsb (has_tag (qname (u "dependencies"))) before = false
        /\ tag d = qname (u "dependencies")
        /\ outcome (parse_dependencies_from_pom fromstring pom)
           = inr (records (filter (has_tag (qname (u "dependency")))
                             (children d)))).
Proof.
  intro H. rewrite (parse_outcome _ _ _ H). unfold declared.
  destruct (dependencies_elem root) as [d|] eqn:E.
  - right. apply hd_error_filter_Some in E as (b & a & Hsplit & Hd & Hb).
    exists b, d, a. repeat split; try assumption.
    now apply str_eqb_eq in Hd.
  - left. split; [|reflexivity]. now apply hd_error_filter_None.
Qed.

Lemma parser_takes_first_dependencies_descendant_witness :
  reads managed_text managed_root managed_text = inr managed_root
  /\ ((existsb (has_tag (qname (u "dependencies"))) (descendants managed_root)
       = false
       /\ outcome (parse_dependencies_from_pom
                     (reads managed_text managed_root) managed_text) = inr [])
      \/ (exists before d after,
            descendants managed_root = before ++ d :: after
            /\ existsb (has_tag (qname (u "dependencies"))) before = false
            /\ tag d = qname (u "dependencies")
            /\ outcome (parse_dependencies_from_pom
                          (reads managed_text managed_root) managed_text)
               = inr (records (filter (has_tag (qname (u "dependency")))
                                 (children d))))).
Proof.
  split; [vm_compute; reflexivity|].
  apply (parser_takes_first_dependencies_descendant
           (reads managed_text managed_root) managed_text managed_root).
  vm_compute; reflexivity.
Defined.

(** * Further properties *)

(** ** The coordinate parser: failure, first colon, stability *)

Lemma parse_package_name_without_colon package :
  contains colon package = false ->
  parse_package_name package
  = ([msg_package_error ++ msg_no_colon], inl (ValueError msg_no_colon)).
Proof.
  intro H. unfold parse_package_name. rewrite H. reflexivity.
Qed.

Lemma parse_package_name_with_colon package :
  contains colon package = true ->
  exists before after,
    package = before ++ colon :: after
    /\ contains colon before = false
    /\ parse_package_name package = ret (strip before, strip after).
Proof.
  intro H. destruct (split1_first _ _ H) as (b & a & Heq & Hb & _).
  exists b, a. repeat split; try assumption.
  now apply parse_package_name_split.
Qed.

Lemma clean_lstrip s : starts_clean s = true -> lstrip s = s.
Proof.
  destruct s as [|c s]; [reflexivity|]. cbn [starts_clean lstrip].
  intro H. apply negb_true_iff in H. now rewrite H.
Qed.

Lemma trimmed_strip s : trimmed s = true -> strip s = s.
Proof.
  unfold trimmed, strip, rstrip. intro H.
  apply andb_true_iff in H as [Hl Hr].
  rewrite (clean_lstrip _ Hl), (clean_lstrip _ Hr).
  apply rev_involutive.
Qed.

Lemma strip_trimmed s : trimmed (strip s) = true.
Proof. now destruct (strip_spec s) as (l & r & _ & _ & _ & H). Qed.

Lemma strip_keeps_free c s : contains c s = false -> contains c (strip s) = false.
Proof.
  intro H. destruct (strip_spec s) as (l & r & Hs & _).
  rewrite Hs in H. now apply contains_middle in H.
Qed.

(** X1: the coordinate parser fails exactly on a text without [':']: it
    then prints one line and raises the [ValueError] of the missing colon;
    on every text with a [':'] it returns a pair and prints nothing. *)
Theorem parse_package_name_fails_iff_no_colon package :
  (contains colon package = false
   /\ parse_package_name package
      = ([msg_package_error ++ msg_no_colon], inl (ValueError msg_no_colon)))
  \/ (contains colon package = true
      /\ exists g a, parse_package_name package = ([], inr (g, a))).
Proof.
  destruct (contains colon package) eqn:E.
  - right. split; [reflexivity|].
    destruct (parse_package_name_with_colon _ E) as (b & a & _ & _ & H).
    now exists (strip b), (strip a).
  - left. split; [reflexivity|]. now apply parse_package_name_without_colon.
Qed.

(** X2: the split is at the first colon: of a text [group:rest] whose
    [group] has no colon the parser returns [group] and [rest] stripped,
    however many colons [rest] holds, and the group it returns has no
    colon. *)
Theorem parse_package_name_first_colon group rest :
  contains colon group = false ->
  parse_package_name (group ++ u ":" ++ rest) = ret (strip group, strip rest)
  /\ contains colon (strip group) = false.
Proof.
  intro H. split.
  - now apply parse_package_name_split.
  - now apply strip_keeps_free.
Qed.

Lemma parse_package_name_first_colon_witness :
  parse_package_name (u "org.example " ++ u ":" ++ u " lib:jar:tests")
  = ret (strip (u "org.example "), strip (u " lib:jar:tests"))
  /\ contains colon (strip (u "org.example ")) = false.
Proof.
  apply (parse_package_name_first_colon (u "org.example ")
           (u " lib:jar:tests")).
  vm_compute; reflexivity.
Defined.

(** X3: the pair the parser returns is stable: joined with [':'] and parsed
    again it gives the same pair. *)
Theorem parse_package_name_rejoin_stable package g a :
  outcome (parse_package_name package) = inr (g, a) ->
  parse_package_name (rejoin (g, a)) = ret (g, a).
Proof.
  intro H. destruct (contains colon package) eqn:E.
  - destruct (parse_package_name_with_colon _ E) as (b & r & _ & Hb & Hp).
    rewrite Hp in H. injection H as <- <-.
    unfold rejoin. cbn [fst snd].
    change (strip b ++ u ":" ++ strip r) with (strip b ++ colon :: strip r).
    rewrite (parse_package_name_split _ (strip b) (strip r) eq_refl
               (strip_keeps_free _ _ Hb)).
    now rewrite !(trimmed_strip _ (strip_trimmed _)).
  - rewrite (parse_package_name_without_colon _ E) in H. discriminate H.
Qed.

Lemma parse_package_name_rejoin_stable_witness :
  parse_package_name
    (rejoin (u "org.springframework", u "spring-core"))
  = ret (u "org.springframework", u "spring-core").
Proof.
  apply (parse_package_name_rejoin_stable
           (u " org.springframework : spring-core ")).
  vm_compute; reflexivity.
Defined.

(** ** The URL builder: which group identifiers share an address *)

Lemma replace_idempotent old new s :
  old <> new -> replace old new (replace old new s) = replace old new s.
Proof.
  intro Hne. unfold replace. rewrite map_map. apply map_ext. intro c.
  destruct (c =? old) eqn:E; [|now rewrite E].
  assert ((new =? old) = false) as -> by (apply N.eqb_neq; congruence).
  reflexivity.
Qed.

(** X4: with the artifact, the version and the root fixed, two group
    identifiers get the same address exactly when they are the same once
    every ['.'] is read as ['/']; so a group written with slashes shares
    the address of the group written with dots. *)
Theorem construct_pom_url_same_address group_id group_id' a v root :
  (construct_pom_url group_id a v root = construct_pom_url group_id' a v root
   <-> replace dot slash group_id = replace dot slash group_id')
  /\ construct_pom_url (replace dot slash group_id) a v root
     = construct_pom_url group_id a v root.
Proof.
  split; [split|].
  - unfold construct_pom_url. intro H.
    apply app_inv_head in H. apply app_inv_head in H.
    now apply app_inv_tail in H.
  - unfold construct_pom_url. now intros ->.
  - unfold construct_pom_url.
    now rewrite replace_idempotent by discriminate.
Qed.

(** ** The fetcher: success, failures, and the one request it sends *)

Lemma download_pom_file_cases urlopen decode_utf8 pom_url :
  download_pom_file urlopen decode_utf8 pom_url
  = match urlopen (request_for pom_url) 30 with
    | inl e => ([msg_downloading ++ pom_url], inl (fetch_failure e))
    | inr response =>
        if status response =? 200 then
          match read response with
          | inl e => ([msg_downloading ++ pom_url], inl (fetch_failure e))
          | inr raw =>
              match decode_utf8 raw with
              | inl e => ([msg_downloading ++ pom_url], inl (fetch_failure e))
              | inr content =>
                  ([msg_downloading ++ pom_url; msg_downloaded], inr content)
              end
          end
        else ([msg_downloading ++ pom_url],
              inl (status_failure (status response)))
    end.
Proof.
  unfold download_pom_file. fold (request_for pom_url).
  destruct (urlopen (request_for pom_url) 30) as [e|response].
  - now destruct e.
  - unfold lift, bind, print, try_except. cbv beta iota.
    destruct (status response =? 200); [|reflexivity].
    destruct (read response) as [e|raw]; [now destruct e|].
    destruct (decode_utf8 raw) as [e|content]; [now destruct e|].
    reflexivity.
Qed.

Lemma fetch_failure_is_Exception e : exists msg, fetch_failure e = Exception msg.
Proof. destruct e; cbn; unfold http_failure; eauto. Qed.

(** X5: when the response has status 200, its body can be read and the
    body decodes, the fetcher returns the decoded text and prints the two
    lines of a successful download. *)
Theorem download_pom_file_returns_decoded_body
    urlopen decode_utf8 pom_url response raw content :
  urlopen (request_for pom_url) 30 = inr response ->
  status response = 200 ->
  read response = inr raw ->
  decode_utf8 raw = inr content ->
  download_pom_file urlopen decode_utf8 pom_url
  = ([msg_downloading ++ pom_url; msg_downloaded], inr content).
Proof.
  intros Hu Hs Hr Hd. rewrite download_pom_file_cases, Hu, Hs, Hr, Hd.
  reflexivity.
Qed.

Lemma download_pom_file_returns_decoded_body_witness :
  download_pom_file
    (strict_server sample_url (inr (mkResponse 200 (inr junit_text))))
    (fun raw => inr raw) sample_url
  = ([msg_downloading ++ sample_url; msg_downloaded], inr junit_text).
Proof.
  apply (download_pom_file_returns_decoded_body
           (strict_server sample_url (inr (mkResponse 200 (inr junit_text))))
           (fun raw => inr raw) sample_url
           (mkResponse 200 (inr junit_text)) junit_text junit_text);
    vm_compute; reflexivity.
Defined.

(** X6: whatever goes wrong, the fetcher raises a plain [Exception] -- never
    the [HTTPError], [URLError] or other exception it caught -- and by then
    it has printed the line announcing the download and nothing else. *)
Theorem download_pom_file_raises_only_Exception
    urlopen decode_utf8 pom_url e :
  outcome (download_pom_file urlopen decode_utf8 pom_url) = inl e ->
  (exists msg, e = Exception msg)
  /\ stdout (download_pom_file urlopen decode_utf8 pom_url)
     = [msg_downloading ++ pom_url].
Proof.
  rewrite download_pom_file_cases.
  destruct (urlopen (request_for pom_url) 30) as [e0|response].
  - cbn. intros [= <-]. split; [apply fetch_failure_is_Exception|reflexivity].
  - destruct (status response =? 200).
    + destruct (read response) as [e0|raw].
      * cbn. intros [= <-].
        split; [apply fetch_failure_is_Exception|reflexivity].
      * destruct (decode_utf8 raw) as [e0|content]; cbn; [|discriminate].
        intros [= <-].
        split; [apply fetch_failure_is_Exception|reflexivity].
    + cbn. intros [= <-]. unfold status_failure. split; eauto.
Qed.

Lemma download_pom_file_raises_only_Exception_witness :
  (exists msg, Exception (msg_url_error ++ u "timed out") = Exception msg)
  /\ stdout (download_pom_file (fun _ _ => inl (URLError (u "timed out")))
               (fun raw => inr raw) sample_url)
     = [msg_downloading ++ sample_url].
Proof.
  apply (download_pom_file_raises_only_Exception
           (fun _ _ => inl (URLError (u "timed out")))
           (fun raw => inr raw) sample_url
           (Exception (msg_url_error ++ u "timed out"))).
  vm_compute; reflexivity.
Defined.

(** X7: the causes of a failed download and what the fetcher makes of
    them.  A [URLError] becomes the exception of the URL error with its
    reason; any exception that is neither an [HTTPError] nor a [URLError]
    -- raised when the request is built or sent (an address that is no URL,
    such as a local path), when the body is read, or when it is decoded --
    becomes the exception of the download error with that exception's
    text. *)
Theorem download_pom_file_failure_causes urlopen decode_utf8 pom_url :
  (forall reason,
      urlopen (request_for pom_url) 30 = inl (URLError reason) ->
      download_pom_file urlopen decode_utf8 pom_url
      = ([msg_downloading ++ pom_url],
         inl (Exception (msg_url_error ++ reason))))
  /\ (forall e,
        is_url_error e = false ->
        urlopen (request_for pom_url) 30 = inl e ->
        download_pom_file urlopen decode_utf8 pom_url
        = ([msg_downloading ++ pom_url],
           inl (Exception (msg_download_error ++ str_of_exn e))))
  /\ (forall response e,
        is_url_error e = false ->
        urlopen (request_for pom_url) 30 = inr response ->
        status response = 200 ->
        read response = inl e ->
        download_pom_file urlopen decode_utf8 pom_url
        = ([msg_downloading ++ pom_url],
           inl (Exception (msg_download_error ++ str_of_exn e))))
  /\ (forall response raw e,
        is_url_error e = false ->
        urlopen (request_for pom_url) 30 = inr response ->
        status response = 200 ->
        read response = inr raw ->
        decode_utf8 raw = inl e ->
        download_pom_file urlopen decode_utf8 pom_url
        = ([msg_downloading ++ pom_url],
           inl (Exception (msg_download_error ++ str_of_exn e)))).
Proof.
  repeat split.
  - intros reason H. now rewrite download_pom_file_cases, H.
  - intros e He H. rewrite download_pom_file_cases, H.
    destruct e; try discriminate He; reflexivity.
  - intros response e He H Hs Hr.
    rewrite download_pom_file_cases, H, Hs, Hr.
    destruct e; try discriminate He; reflexivity.
  - intros response raw e He H Hs Hr Hd.
    rewrite download_pom_file_cases, H, Hs, Hr, Hd.
    destruct e; try discriminate He; reflexivity.
Qed.

(** X8: the fetcher sends one request: the address it was given, with the
    header [User-Agent: Maven-Dependency-Visualizer/1.0] and a time-out of
    30.  Two transports that answer this request alike give the same
    download, whatever they do with other requests. *)
Theorem download_pom_file_single_request
    urlopen urlopen' decode_utf8 pom_url :
  urlopen
    (mkRequest pom_url [(u "User-Agent", u "Maven-Dependency-Visualizer/1.0")])
    30
  = urlopen'
      (mkRequest pom_url
         [(u "User-Agent", u "Maven-Dependency-Visualizer/1.0")])
      30 ->
  download_pom_file urlopen decode_utf8 pom_url
  = download_pom_file urlopen' decode_utf8 pom_url.
Proof.
  intro H. rewrite !download_pom_file_cases. unfold request_for.
  now rewrite H.
Qed.

Lemma download_pom_file_single_request_witness :
  download_pom_file
    (strict_server sample_url (inr (mkResponse 200 (inr junit_text))))
    (fun raw => inr raw) sample_url
  = download_pom_file (fun _ _ => inr (mkResponse 200 (inr junit_text)))
      (fun raw => inr raw) sample_url.
Proof.
  apply (download_pom_file_single_request
           (strict_server sample_url (inr (mkResponse 200 (inr junit_text))))
           (fun _ _ => inr (mkResponse 200 (inr junit_text)))
           (fun raw => inr raw) sample_url).
  vm_compute; reflexivity.
Defined.

(** ** The parser: failures, order, declared fields, the message *)

Lemma parse_reader_failure fromstring pom e :
  fromstring pom = inl e ->
  parse_dependencies_from_pom fromstring pom
  = ([], inl (Exception (parser_prefix e ++ str_of_exn e))).
Proof.
  intro H. unfold parse_dependencies_from_pom. rewrite H.
  unfold lift, bind, try_except, raise, parser_prefix.
  destruct e; reflexivity.
Qed.

(** X9: the parser fails only when the XML reader fails.  On every tree
    the reader returns the extraction succeeds; an exception of the reader
    comes back as a plain [Exception], with the parse-error prefix for a
    [ParseError] and the extraction-error prefix for any other, and nothing
    is printed. *)
Theorem parser_fails_only_with_reader fromstring pom :
  (forall root,
      fromstring pom = inr root ->
      exists out,
        outcome (parse_dependencies_from_pom fromstring pom) = inr out)
  /\ (forall e,
        fromstring pom = inl e ->
        parse_dependencies_from_pom fromstring pom
        = ([], inl (Exception (parser_prefix e ++ str_of_exn e))))
  /\ (forall e,
        outcome (parse_dependencies_from_pom fromstring pom) = inl e ->
        exists e0,
          fromstring pom = inl e0
          /\ e = Exception (parser_prefix e0 ++ str_of_exn e0)).
Proof.
  repeat split.
  - intros root H. rewrite (parse_outcome _ _ _ H). eauto.
  - intros e H. now apply parse_reader_failure.
  - intros e H. destruct (fromstring pom) as [e0|root] eqn:E.
    + rewrite (parse_reader_failure _ _ _ E) in H. injection H as <-. eauto.
    + rewrite (parse_outcome _ _ _ E) in H. discriminate H.
Qed.

Lemma extract_dependency_record dep r :
  extract_dependency dep [] = ret [r] -> record_of dep = Some r.
Proof.
  rewrite extract_dependency_eq. unfold appended, ret.
  destruct (record_of dep); intros [= H]; congruence.
Qed.

(** X10: the records come in the order of the manifest: when a dependency
    element stands before another among the dependency elements and the
    loop builds a record for each, the first record stands before the
    second in the output. *)
Theorem parser_keeps_declaration_order
    fromstring pom root l1 d1 l2 d2 l3 r1 r2 :
  fromstring pom = inr root ->
  declared root = l1 ++ d1 :: l2 ++ d2 :: l3 ->
  extract_dependency d1 [] = ret [r1] ->
  extract_dependency d2 [] = ret [r2] ->
  exists o1 o2 o3,
    outcome (parse_dependencies_from_pom fromstring pom)
    = inr (o1 ++ r1 :: o2 ++ r2 :: o3).
Proof.
  intros H Hd H1 H2.
  apply extract_dependency_record in H1, H2.
  rewrite (parse_outcome _ _ _ H), Hd.
  exists (records l1), (records l2), (records l3).
  rewrite records_app. cbn [records]. rewrite H1.
  rewrite records_app. cbn [records]. now rewrite H2.
Qed.

Lemma parser_keeps_declaration_order_witness :
  exists o1 o2 o3,
    outcome (parse_dependencies_from_pom (reads two_text two_root) two_text)
    = inr (o1
             ++ mkDependency (Some (u "org.slf4j")) (Some (u "slf4j-api"))
                  (Some (u "2.0.9")) (Some (u "compile"))
             :: o2
             ++ mkDependency (Some (u "junit")) (Some (u "junit")) None
                  (Some (u "test"))
             :: o3).
Proof.
  apply (parser_keeps_declaration_order (reads two_text two_root) two_text
           two_root [] slf4j_dependency [] junit_test_dependency []);
    vm_compute; reflexivity.
Defined.

(** X11: a dependency element that has all four children yields the record
    of their four texts: a declared version and scope take the place of the
    defaults, and a child without text gives an absent field, not the
    default. *)
Theorem parser_carries_declared_fields fromstring pom root dep g a v s :
  fromstring pom = inr root ->
  In dep (declared root) ->
  child (u "groupId") dep = Some g ->
  child (u "artifactId") dep = Some a ->
  child (u "version") dep = Some v ->
  child (u "scope") dep = Some s ->
  exists out,
    outcome (parse_dependencies_from_pom fromstring pom) = inr out
    /\ In (mkDependency (text g) (text a) (text v) (text s)) out.
Proof.
  intros H Hin Hg Ha Hv Hs. exists (records (declared root)).
  split; [now apply parse_outcome|].
  apply (In_records dep); [assumption|].
  unfold record_of. now rewrite Hg, Ha, Hv, Hs.
Qed.

Lemma parser_carries_declared_fields_witness :
  exists out,
    outcome (parse_dependencies_from_pom (reads two_text two_root) two_text)
    = inr out
    /\ In (mkDependency (Some (u "junit")) (Some (u "junit")) None
             (Some (u "test"))) out.
Proof.
  apply (parser_carries_declared_fields (reads two_text two_root) two_text
           two_root junit_test_dependency
           (elem (u "groupId") (Some (u "junit")) [])
           (elem (u "artifactId") (Some (u "junit")) [])
           (elem (u "version") None [])
           (elem (u "scope") (Some (u "test")) [])).
  - vm_compute; reflexivity.
  - vm_compute. right; left; reflexivity.
  - vm_compute; reflexivity.
  - vm_compute; reflexivity.
  - vm_compute; reflexivity.
  - vm_compute; reflexivity.
Defined.

(** X12: on a well-formed manifest the parser prints its one message, that
    no dependencies were found, exactly when there is no dependency list
    below the root; when a list is found it prints nothing, even if the
    list yields no record. *)
Theorem parser_message_iff_no_list fromstring pom root :
  fromstring pom = inr root ->
  stdout (parse_dependencies_from_pom fromstring pom)
  = (if existsb (has_tag (qname (u "dependencies"))) (descendants root)
     then []
     else [msg_no_dependencies]).
Proof.
  intro H. rewrite (parse_well_formed _ _ _ H).
  destruct (dependencies_elem root) as [d|] eqn:E.
  - destruct (existsb (has_tag (qname (u "dependencies"))) (descendants root))
      eqn:Ex; [reflexivity|].
    apply hd_error_filter_None in Ex. unfold dependencies_elem in E.
    congruence.
  - apply hd_error_filter_None in E. now rewrite E.
Qed.

Lemma parser_message_iff_no_list_witness :
  stdout (parse_dependencies_from_pom (reads empty_list_text empty_list_root)
            empty_list_text) = []
  /\ stdout (parse_dependencies_from_pom (reads bare_text bare_root)
               bare_text) = [msg_no_dependencies].
Proof.
  split.
  - apply (parser_message_iff_no_list (reads empty_list_text empty_list_root)
             empty_list_text empty_list_root).
    vm_compute; reflexivity.
  - apply (parser_message_iff_no_list (reads bare_text bare_root)
             bare_text bare_root).
    vm_compute; reflexivity.
Defined.

(** ** The listing of the dependencies *)

Lemma print_dependencies_eq deps : forall i,
  print_dependencies i deps = (dependency_lines i deps, inr tt).
Proof.
  induction deps as [|dep rest IH]; intro i; [reflexivity|].
  cbn [print_dependencies dependency_lines].
  unfold bind, print. rewrite IH. reflexivity.
Qed.

Lemma dependency_lines_length deps : forall i,
  length (dependency_lines i deps) = length deps.
Proof.
  induction deps as [|dep rest IH]; intro i; [reflexivity|].
  cbn [dependency_lines length]. now rewrite IH.
Qed.

Lemma dependency_lines_nth deps : forall i k dep,
  nth_error deps k = Some dep ->
  nth_error (dependency_lines i deps) k
  = Some (dependency_line (i + N.of_nat k) dep).
Proof.
  induction deps as [|d rest IH]; intros i [|k] dep H; try discriminate H.
  - injection H as ->. cbn. now rewrite N.add_0_r.
  - cbn [dependency_lines nth_error]. cbn [nth_error] in H.
    rewrite (IH _ _ _ H). do 2 f_equal. lia.
Qed.

Lemma display_dependencies_eq deps name :
  display_dependencies deps name
  = ((newline ++ msg_direct_open ++ name ++ msg_direct_close)
       :: match deps with
          | [] => [msg_none_found]
          | _ :: _ =>
              dependency_lines 1 deps
                ++ [newline ++ msg_total ++ of_N (N.of_nat (length deps));
                    msg_rule ++ newline]
          end,
     inr tt).
Proof.
  unfold display_dependencies. destruct deps as [|d rest]; [reflexivity|].
  rewrite print_dependencies_eq. unfold bind, print. cbn [app].
  reflexivity.
Qed.

(** X13: the listing never fails.  For no dependency it is two lines, the
    heading and the line saying none was found; for [n] dependencies it is
    [n + 3] lines, the heading first and, after the numbered lines, the line
    of the total, which shows [n]. *)
Theorem display_dependencies_shape deps name :
  outcome (display_dependencies deps name) = inr tt
  /\ nth_error (stdout (display_dependencies deps name)) 0
     = Some (newline ++ msg_direct_open ++ name ++ msg_direct_close)
  /\ match deps with
     | [] => stdout (display_dependencies deps name)
             = [newline ++ msg_direct_open ++ name ++ msg_direct_close;
                msg_none_found]
     | _ :: _ =>
         length (stdout (display_dependencies deps name))
         = (length deps + 3)%nat
         /\ nth_error (stdout (display_dependencies deps name))
              (S (length deps))
            = Some (newline ++ msg_total ++ of_N (N.of_nat (length deps)))
     end.
Proof.
  rewrite display_dependencies_eq. unfold outcome, stdout. cbn [fst snd].
  split; [reflexivity|]. split; [reflexivity|].
  destruct deps as [|d rest]; [reflexivity|]. split.
  - cbn [length]. rewrite length_app, dependency_lines_length.
    cbn [length]. lia.
  - cbn [nth_error].
    rewrite nth_error_app2; rewrite dependency_lines_length; [|lia].
    now rewrite Nat.sub_diag.
Qed.

(** X14: the dependency at position [k] (from 0) of the sequence is shown
    on line [k + 1] of the listing, numbered [k + 1], as
    [group:artifact:version [scope]]; an absent field shows as [None]. *)
Theorem display_dependencies_numbers_in_order deps name k dep :
  nth_error deps k = Some dep ->
  nth_error (stdout (display_dependencies deps name)) (S k)
  = Some (format_index (N.of_nat (S k)) ++ u ". "
            ++ format_value (groupId dep) ++ u ":"
            ++ format_value (artifactId dep) ++ u ":"
            ++ format_value (version dep) ++ u " ["
            ++ format_value (scope dep) ++ u "]").
Proof.
  intro H. rewrite display_dependencies_eq. unfold stdout. cbn [fst nth_error].
  destruct deps as [|d rest]; [destruct k; discriminate H|].
  assert (k < length (d :: rest))%nat as Hk
    by (apply nth_error_Some; congruence).
  rewrite nth_error_app1 by now rewrite dependency_lines_length.
  rewrite (dependency_lines_nth _ _ _ _ H). unfold dependency_line.
  do 3 f_equal. lia.
Qed.

Lemma display_dependencies_numbers_in_order_witness :
  nth_error
    (stdout (display_dependencies
               [mkDependency (Some (u "org.slf4j")) (Some (u "slf4j-api"))
                  (Some (u "2.0.9")) (Some (u "compile"));
                mkDependency None (Some (u "junit")) (Some (u "N/A"))
                  (Some (u "test"))]
               (u "g:a:1")))
    2
  = Some (u " 2. None:junit:N/A [test]").
Proof.
  apply (display_dependencies_numbers_in_order
           [mkDependency (Some (u "org.slf4j")) (Some (u "slf4j-api"))
              (Some (u "2.0.9")) (Some (u "compile"));
            mkDependency None (Some (u "junit")) (Some (u "N/A"))
              (Some (u "test"))]
           (u "g:a:1") 1
           (mkDependency None (Some (u "junit")) (Some (u "N/A"))
              (Some (u "test")))).
  reflexivity.
Defined.

(** ** The second stage: the first failure ends it *)

Lemma outcome_bind {A B} (m : M A) (k : A -> M B) :
  outcome (bind m k)
  = match outcome m with
    | inl e => inl e
    | inr a => outcome (k a)
    end.
Proof.
  destruct m as [out [e|a]]; [reflexivity|].
  unfold bind, outcome. cbn [snd]. now destruct (k a).
Qed.

Lemma outcome_print_bind {B} line (k : unit -> M B) :
  outcome (bind (print line) k) = outcome (k tt).
Proof. unfold bind, print, outcome. now destruct (k tt). Qed.

Lemma display_dependencies_outcome deps name :
  outcome (display_dependencies deps name) = inr tt.
Proof. now rewrite display_dependencies_eq. Qed.

Lemma run_stage2_outcome urlopen decode_utf8 fromstring args :
  outcome (run_stage2 urlopen decode_utf8 fromstring args)
  = match outcome (parse_package_name (package args)) with
    | inl e => inl e
    | inr (g, a) =>
        match outcome (download_pom_file urlopen decode_utf8
                         (construct_pom_url g a (version_arg args)
                            (repository args))) with
        | inl e => inl e
        | inr content =>
            match outcome (parse_dependencies_from_pom fromstring content) with
            | inl e => inl e
            | inr _ => inr tt
            end
        end
    end.
Proof.
  unfold run_stage2. rewrite outcome_print_bind, outcome_bind.
  destruct (outcome (parse_package_name (package args))) as [e|[g a]];
    [reflexivity|].
  cbv beta iota zeta. rewrite !outcome_print_bind, outcome_bind.
  destruct (outcome (download_pom_file urlopen decode_utf8
                       (construct_pom_url g a (version_arg args)
                          (repository args)))) as [e|content];
    [reflexivity|].
  rewrite outcome_bind.
  destruct (outcome (parse_dependencies_from_pom fromstring content))
    as [e|deps]; [reflexivity|].
  now rewrite outcome_bind, display_dependencies_outcome.
Qed.


(** X15: the second stage ends with the exception of the first of its
    steps that fails -- the coordinate parser, then the fetcher on the
    address built from the coordinate, then the manifest parser on the text
    fetched -- and otherwise completes: the listing and the messages never
    fail. *)
Theorem run_stage2_fails_fast urlopen decode_utf8 fromstring args :
  outcome (run_stage2 urlopen decode_utf8 fromstring args)
  = match outcome (parse_package_name (package args)) with
    | inl e => inl e
    | inr (g, a) =>
        match outcome (download_pom_file urlopen decode_utf8
                         (construct_pom_url g a (version_arg args)
                            (repository args))) with
        | inl e => inl e
        | inr content =>
            match outcome (parse_dependencies_from_pom fromstring content) with
            | inl e => inl e
            | inr _ => inr tt
            end
        end
    end.
Proof. apply run_stage2_outcome. Qed.

(** X16: for a package without [':'] the second stage ends with the
    [ValueError] of the coordinate parser after its heading and the error
    line, whatever the transport and the XML reader are: no request is
    sent. *)
Theorem run_stage2_bad_coordinate urlopen decode_utf8 fromstring args :
  contains colon (package args) = false ->
  run_stage2 urlopen decode_utf8 fromstring args
  = ([msg_stage2; msg_package_error ++ msg_no_colon],
     inl (ValueError msg_no_colon)).
Proof.
  intro H. unfold run_stage2.
  rewrite (parse_package_name_without_colon _ H). reflexivity.
Qed.

Lemma run_stage2_bad_coordinate_witness :
  run_stage2 (fun _ _ => inr (mkResponse 200 (inr junit_text)))
    (fun raw => inr raw) (reads junit_text junit_root)
    (mkArgs (u "junit") (u "https://example.com/repo") (u "4.13"))
  = ([msg_stage2; msg_package_error ++ msg_no_colon],
     inl (ValueError msg_no_colon)).
Proof.
  apply (run_stage2_bad_coordinate
           (fun _ _ => inr (mkResponse 200 (inr junit_text)))
           (fun raw => inr raw) (reads junit_text junit_root)
           (mkArgs (u "junit") (u "https://example.com/repo") (u "4.13"))).
  vm_compute; reflexivity.
Defined.

(** X17: when the text fetched is not well-formed XML the second stage ends
    with the parser's exception right after the lines of the download: the
    listing is not printed. *)
Theorem run_stage2_malformed_manifest
    urlopen decode_utf8 fromstring args g a out content description :
  parse_package_name (package args) = ret (g, a) ->
  download_pom_file urlopen decode_utf8
    (construct_pom_url g a (version_arg args) (repository args))
  = (out, inr content) ->
  fromstring content = inl (ParseError description) ->
  run_stage2 urlopen decode_utf8 fromstring args
  = ([msg_stage2;
      msg_package ++ g ++ u ":" ++ a ++ u ":" ++ version_arg args;
      msg_repository ++ repository args;
      msg_pom_url
        ++ construct_pom_url g a (version_arg args) (repository args)]
       ++ out,
     inl (Exception (msg_parse_error ++ description))).
Proof.
  intros Hp Hd Hf. unfold run_stage2. rewrite Hp.
  unfold bind at 1 2 3 4 5, print, ret. cbv beta iota. rewrite Hd.
  unfold bind at 1. cbv beta iota.
  rewrite (parse_reader_failure _ _ _ Hf). cbn [parser_prefix str_of_exn].
  unfold bind. cbn [app]. now rewrite app_nil_r.
Qed.

Lemma run_stage2_malformed_manifest_witness :
  run_stage2 (fun _ _ => inr (mkResponse 200 (inr malformed_text)))
    (fun raw => inr raw) (reads junit_text junit_root) sample_args
  = ([msg_stage2;
      msg_package ++ u "junit" ++ u ":" ++ u "junit" ++ u ":"
        ++ version_arg sample_args;
      msg_repository ++ repository sample_args;
      msg_pom_url
        ++ construct_pom_url (u "junit") (u "junit") (version_arg sample_args)
             (repository sample_args)]
       ++ [msg_downloading ++ sample_url; msg_downloaded],
     inl (Exception (msg_parse_error ++ u "syntax error: line 1, column 0"))).
Proof.
  apply (run_stage2_malformed_manifest
           (fun _ _ => inr (mkResponse 200 (inr malformed_text)))
           (fun raw => inr raw) (reads junit_text junit_root) sample_args
           (u "junit") (u "junit")
           [msg_downloading ++ sample_url; msg_downloaded]
           malformed_text (u "syntax error: line 1, column 0"));
    vm_compute; reflexivity.
Defined.

Lemma download_failure_is_Exception urlopen decode_utf8 pom_url e :
  outcome (download_pom_file urlopen decode_utf8 pom_url) = inl e ->
  exists msg, e = Exception msg.
Proof.
  rewrite download_pom_file_cases.
  destruct (urlopen (request_for pom_url) 30) as [e0|response].
  - cbn. intros [= <-]. apply fetch_failure_is_Exception.
  - destruct (status response =? 200).
    + destruct (read response) as [e0|raw].
      * cbn. intros [= <-]. apply fetch_failure_is_Exception.
      * destruct (decode_utf8 raw) as [e0|content]; cbn; [|discriminate].
        intros [= <-]. apply fetch_failure_is_Exception.
    + cbn. intros [= <-]. unfold status_failure. eauto.
Qed.

Lemma parse_failure_is_Exception fromstring pom e :
  outcome (parse_dependencies_from_pom fromstring pom) = inl e ->
  exists msg, e = Exception msg.
Proof.
  destruct (fromstring pom) as [e0|root] eqn:E.
  - rewrite (parse_reader_failure _ _ _ E). cbn. intros [= <-]. eauto.
  - rewrite (parse_outcome _ _ _ E). discriminate.
Qed.

Lemma run_stage2_failure_is_Exception urlopen decode_utf8 fromstring args e :
  contains colon (package args) = true ->
  outcome (run_stage2 urlopen decode_utf8 fromstring args) = inl e ->
  exists msg, e = Exception msg.
Proof.
  intros Hc. rewrite run_stage2_outcome.
  destruct (parse_package_name_with_colon _ Hc) as (b & r & _ & _ & Hp).
  rewrite Hp. cbn [outcome ret snd].
  destruct (outcome (download_pom_file urlopen decode_utf8
                       (construct_pom_url (strip b) (strip r)
                          (version_arg args) (repository args))))
    as [e0|content] eqn:Ed.
  - intros [= <-]. now apply download_failure_is_Exception in Ed.
  - destruct (outcome (parse_dependencies_from_pom fromstring content))
      as [e0|deps] eqn:Ep; [|discriminate].
    intros [= <-]. now apply parse_failure_is_Exception in Ep.
Qed.

(** ** Validation of the arguments *)

Lemma blank_eq s : is_empty s || str_isspace s = blank s.
Proof. now destruct s. Qed.

Lemma validate_arguments_eq config :
  validate_arguments config
  = if negb (contains colon (arg_package config))
    then ([msg_validation ++ msg_need_colon], inr false)
    else if blank (arg_version config)
    then ([msg_validation ++ msg_need_version], inr false)
    else if (arg_max_depth config <=? 0)%Z
    then ([msg_validation ++ msg_need_depth], inr false)
    else if is_empty (arg_repository config)
    then ([msg_validation ++ msg_need_repository], inr false)
    else ([], inr true).
Proof.
  unfold validate_arguments. rewrite blank_eq.
  destruct (contains colon (arg_package config)); [|reflexivity].
  destruct (blank (arg_version config)); [reflexivity|].
  destruct (arg_max_depth config <=? 0)%Z; [reflexivity|].
  destruct (is_empty (arg_repository config)); reflexivity.
Qed.

Lemma validate_arguments_outcome config :
  outcome (validate_arguments config) = inr (acceptable config).
Proof.
  rewrite validate_arguments_eq. unfold acceptable.
  rewrite (Z.ltb_antisym (arg_max_depth config) 0).
  destruct (contains colon (arg_package config)); [|reflexivity].
  destruct (blank (arg_version config)); [reflexivity|].
  destruct (arg_max_depth config <=? 0)%Z; [reflexivity|].
  destruct (is_empty (arg_repository config)); reflexivity.
Qed.

(** X18: the validation never raises.  It returns [True] exactly when the
    package holds a [':'], the version has a character that is not
    whitespace, the maximal depth is positive and the repository is not
    empty; it prints nothing when it accepts and one line when it
    rejects. *)
Theorem validate_arguments_accepts_iff config :
  outcome (validate_arguments config)
  = inr (contains colon (arg_package config)
         && negb (forallb isspace (arg_version config))
         && (0 <? arg_max_depth config)%Z
         && negb (is_empty (arg_repository config)))
  /\ length (stdout (validate_arguments config))
     = (if acceptable config then 0 else 1)%nat.
Proof.
  split; [apply validate_arguments_outcome|].
  rewrite validate_arguments_eq. unfold acceptable.
  rewrite (Z.ltb_antisym (arg_max_depth config) 0).
  destruct (contains colon (arg_package config)); [|reflexivity].
  destruct (blank (arg_version config)); [reflexivity|].
  destruct (arg_max_depth config <=? 0)%Z; [reflexivity|].
  destruct (is_empty (arg_repository config)); reflexivity.
Qed.

(** X19: a rejection names the first check that fails, in the order
    package, version, depth, repository: the later checks are not made. *)
Theorem validate_arguments_first_failure config :
  (contains colon (arg_package config) = false ->
   validate_arguments config
   = ([msg_validation ++ msg_need_colon], inr false))
  /\ (contains colon (arg_package config) = true ->
      forallb isspace (arg_version config) = true ->
      validate_arguments config
      = ([msg_validation ++ msg_need_version], inr false))
  /\ (contains colon (arg_package config) = true ->
      forallb isspace (arg_version config) = false ->
      (arg_max_depth config <= 0)%Z ->
      validate_arguments config
      = ([msg_validation ++ msg_need_depth], inr false))
  /\ (contains colon (arg_package config) = true ->
      forallb isspace (arg_version config) = false ->
      (0 < arg_max_depth config)%Z ->
      arg_repository config = [] ->
      validate_arguments config
      = ([msg_validation ++ msg_need_repository], inr false)).
Proof.
  rewrite validate_arguments_eq. unfold blank. repeat split.
  - now intros ->.
  - now intros -> ->.
  - intros -> -> H. apply Z.leb_le in H. now rewrite H.
  - intros -> -> H Hr. apply Z.leb_gt in H. now rewrite H, Hr.
Qed.

(** X20: a package the validation accepts is one the coordinate parser
    splits: after an accepted validation the parser returns a pair and
    prints nothing, and the second stage can then fail only with the plain
    [Exception] of the fetcher or of the manifest parser. *)
Theorem validated_package_parses
    urlopen decode_utf8 fromstring config :
  outcome (validate_arguments config) = inr true ->
  (exists g a, parse_package_name (arg_package config) = ([], inr (g, a)))
  /\ (forall e,
        outcome (run_stage2 urlopen decode_utf8 fromstring (args_of config))
        = inl e ->
        exists msg, e = Exception msg).
Proof.
  rewrite validate_arguments_outcome. intros [= H].
  unfold acceptable in H.
  apply andb_true_iff in H as [H _]. apply andb_true_iff in H as [H _].
  apply andb_true_iff in H as [H _]. split.
  - destruct (parse_package_name_with_colon _ H) as (b & r & _ & _ & Hp).
    now exists (strip b), (strip r).
  - intros e. now apply run_stage2_failure_is_Exception.
Qed.

Lemma validated_package_parses_witness :
  (exists g a, parse_package_name (arg_package sample_config) = ([], inr (g, a)))
  /\ (forall e,
        outcome (run_stage2 (fun _ _ => inl (HTTPError 404 (u "Not Found")))
                   (fun raw => inr raw) (reads junit_text junit_root)
                   (args_of sample_config))
        = inl e ->
        exists msg, e = Exception msg).
Proof.
  apply (validated_package_parses
           (fun _ _ => inl (HTTPError 404 (u "Not Found")))
           (fun raw => inr raw) (reads junit_text junit_root) sample_config).
  vm_compute; reflexivity.
Defined.

(** ** Display of the arguments *)

Lemma print_items_eq l : print_items l = (map item_line l, inr tt).
Proof.
  induction l as [|[key value] rest IH]; [reflexivity|].
  cbn [print_items map]. unfold bind, print. rewrite IH. reflexivity.
Qed.

Lemma display_config_eq config :
  display_config config
  = ((newline ++ msg_config_open)
       :: map item_line (items config) ++ [msg_config_close ++ newline],
     inr tt).
Proof.
  unfold display_config. rewrite print_items_eq. reflexivity.
Qed.



(** ** The first stage and the program *)

Lemma validate_arguments_pair config :
  validate_arguments config
  = (stdout (validate_arguments config), inr (acceptable config)).
Proof.
  rewrite <- validate_arguments_outcome.
  now destruct (validate_arguments config).
Qed.

Lemma run_stage1_eq config :
  run_stage1 config
  = if acceptable config
    then (msg_stage1 :: stdout (display_config config)
            ++ [msg_stage1_done ++ newline],
          inr tt)
    else (msg_stage1 :: stdout (validate_arguments config)
            ++ [msg_invalid_config],
          inl (SystemExit 1)).
Proof.
  unfold run_stage1. rewrite validate_arguments_pair.
  pose proof (validate_arguments_eq config) as Hv.
  rewrite validate_arguments_pair in Hv.
  destruct (acceptable config) eqn:Ea.
  - assert (stdout (validate_arguments config) = []) as ->.
    { revert Hv.
      destruct (negb (contains colon (arg_package config)));
        [discriminate|].
      destruct (blank (arg_version config)); [discriminate|].
      destruct (arg_max_depth config <=? 0)%Z; [discriminate|].
      destruct (is_empty (arg_repository config)); [discriminate|].
      now intros [= ->]. }
    rewrite display_config_eq. reflexivity.
  - unfold call, pbind, print, exit. cbn [negb app]. reflexivity.
Qed.


Lemma run_parsed parse_arguments urlopen decode_utf8 fromstring out config :
  parse_arguments = (out, inr config) ->
  run parse_arguments urlopen decode_utf8 fromstring
  = if acceptable config
    then
      match run_stage2 urlopen decode_utf8 fromstring (args_of config) with
      | (out2, inl e) =>
          (out ++ (msg_stage1 :: stdout (display_config config)
                     ++ [msg_stage1_done ++ newline])
               ++ out2 ++ [msg_unexpected ++ str_of_exn e],
           inl (SystemExit 1))
      | (out2, inr _) =>
          (out ++ (msg_stage1 :: stdout (display_config config)
                     ++ [msg_stage1_done ++ newline])
               ++ out2 ++ [newline ++ msg_all_done],
           inr tt)
      end
    else
      (out ++ msg_stage1 :: stdout (validate_arguments config)
           ++ [msg_invalid_config],
       inl (SystemExit 1)).
Proof.
  intro H. unfold run. rewrite H. unfold pbind at 1. cbv beta iota.
  rewrite run_stage1_eq. destruct (acceptable config).
  - destruct (run_stage2 urlopen decode_utf8 fromstring (args_of config))
      as [out2 [e|[]]].
    + cbv [pbind call ptry on_abort print exit].
      f_equal.
      all: repeat (rewrite <- ?app_assoc, ?app_nil_r; cbn [app]); reflexivity.
    + cbv [pbind call ptry print].
      f_equal.
      all: repeat (rewrite <- ?app_assoc, ?app_nil_r; cbn [app]); reflexivity.
  - cbv [pbind ptry on_abort exit]. now rewrite app_nil_r.
Qed.

Lemma on_abort_exits a : exists out code, on_abort a = (out, inl (SystemExit code)).
Proof. destruct a; cbv [on_abort pbind call print exit]; eauto. Qed.

Lemma run_aborted parse_arguments urlopen decode_utf8 fromstring out a :
  parse_arguments = (out, inl a) ->
  run parse_arguments urlopen decode_utf8 fromstring
  = (out ++ fst (on_abort a), snd (on_abort a)).
Proof.
  intro H. unfold run. rewrite H. unfold pbind, ptry.
  now destruct (on_abort a).
Qed.

(** X23: the program lets no exception through: it either completes or
    ends by [sys.exit], whatever the argument parser, the transport and the
    XML reader do. *)
Theorem run_exits_or_completes
    parse_arguments urlopen decode_utf8 fromstring a :
  status_of (run parse_arguments urlopen decode_utf8 fromstring) = inl a ->
  exists code, a = SystemExit code.
Proof.
  destruct parse_arguments as [out [a0|config]].
  - rewrite (run_aborted _ _ _ _ out a0 eq_refl). unfold status_of. cbn [snd].
    destruct (on_abort_exits a0) as (o & c & ->). cbn. intros [= <-]. eauto.
  - rewrite (run_parsed _ _ _ _ out config eq_refl).
    destruct (acceptable config).
    + destruct (run_stage2 urlopen decode_utf8 fromstring (args_of config))
        as [out2 [e|u0]]; cbn; [|discriminate].
      intros [= <-]. eauto.
    + cbn. intros [= <-]. eauto.
Qed.

Lemma run_exits_or_completes_witness :
  status_of (run ([], inr sample_config)
               (fun _ _ => inl (HTTPError 404 (u "Not Found")))
               (fun raw => inr raw) (reads junit_text junit_root))
  = inl (SystemExit 1)
  /\ exists code, SystemExit 1 = SystemExit code.
Proof.
  split; [vm_compute; reflexivity|].
  apply (run_exits_or_completes ([], inr sample_config)
           (fun _ _ => inl (HTTPError 404 (u "Not Found")))
           (fun raw => inr raw) (reads junit_text junit_root)).
  vm_compute; reflexivity.
Defined.




(** X26: when the validation rejects the arguments the program exits with
    status 1 after the three lines of the first stage, whatever the
    transport and the XML reader are: the second stage is not entered and
    no request is sent. *)
Theorem run_rejected_arguments
    parse_arguments urlopen decode_utf8 fromstring out config :
  parse_arguments = (out, inr config) ->
  acceptable config = false ->
  run parse_arguments urlopen decode_utf8 fromstring
  = (out ++ msg_stage1 :: stdout (validate_arguments config)
         ++ [msg_invalid_config],
     inl (SystemExit 1)).
Proof.
  intros H Ha. now rewrite (run_parsed _ _ _ _ _ _ H), Ha.
Qed.

Lemma run_rejected_arguments_witness :
  run ([], inr blank_version_config)
    (fun _ _ => inr (mkResponse 200 (inr junit_text)))
    (fun raw => inr raw) (reads junit_text junit_root)
  = ([] ++ msg_stage1 :: stdout (validate_arguments blank_version_config)
        ++ [msg_invalid_config],
     inl (SystemExit 1)).
Proof.
  apply (run_rejected_arguments ([], inr blank_version_config)
           (fun _ _ => inr (mkResponse 200 (inr junit_text)))
           (fun raw => inr raw) (reads junit_text junit_root)
           [] blank_version_config);
    vm_compute; reflexivity.
Defined.

(** ** The first stage on its own (src/stage1.py) *)






